(** * Object resolution in [freqtrade/resolvers/iresolver.py]

    A shallow embedding of [IResolver._get_valid_object] and
    [IResolver._search_object], with the properties of the resolution
    mechanism proved about it.

    Python objects are modelled only as far as the two functions look at
    them: a class has an identity, a [__name__], its tuple of direct
    [__bases__] and the behaviour of calling it; a module is the
    namespace left behind by executing its top-level statements; the
    logger, [exec_module] and class calls are recorded as events. *)

From Stdlib Require Import String Ascii ZArith List.
From stdpp Require Import gmap strings list fin_maps sorting.

Set Warnings "-register-all".

(** ** Python values, classes and exceptions *)

(** Plain values: what a keyword argument or a module attribute that is
    not a class may be. *)
Inductive pyval :=
  | VNone
  | VBool (b : bool)
  | VInt (z : Z)
  | VStr (s : string)
  | VOpaque (tag : string).

(** A Python [dict] with string keys, as [kwargs] is. *)
Abbreviation dict := (gmap string pyval).

(** An exception class.  The built-in ones the resolver meets are
    named; any other class is [OtherException] with its name and its
    direct bases, so that a subclass of a named class, built in or
    defined by a plugin, is a subclass in the model too. *)
Inductive exn_class :=
  | ModuleNotFoundError   (* subclass of ImportError *)
  | ImportError
  | SyntaxError
  | IndentationError      (* subclass of SyntaxError *)
  | TabError              (* subclass of IndentationError *)
  | NameError
  | TypeError
  | OSError
  | OperationalException
  | OtherException (name : string) (bases : list exn_class).

(** An exception instance; [exn_msg] is what [str(err)] gives. *)
Record pyexn := { exn_cls : exn_class; exn_msg : string }.

(** [a is b] on exception classes: a class is told by its name. *)
Definition exn_class_eqb (a b : exn_class) : bool :=
  match a, b with
  | ModuleNotFoundError, ModuleNotFoundError
  | ImportError, ImportError
  | SyntaxError, SyntaxError
  | IndentationError, IndentationError
  | TabError, TabError
  | NameError, NameError
  | TypeError, TypeError
  | OSError, OSError
  | OperationalException, OperationalException => true
  | OtherException x _, OtherException y _ => String.eqb x y
  | _, _ => false
  end.

(** [issubclass(c, k)]: [c] is [k], or one of the classes above [c] is.
    Above the named classes only the named ones are followed; what lies
    further up ([Exception], [BaseException]) is never asked for. *)
Fixpoint exn_issubclass (c k : exn_class) {struct c} : bool :=
  exn_class_eqb c k ||
  match c with
  | ModuleNotFoundError => exn_class_eqb ImportError k
  | IndentationError => exn_class_eqb SyntaxError k
  | TabError => exn_class_eqb IndentationError k || exn_class_eqb SyntaxError k
  | OtherException _ bases => existsb (fun b => exn_issubclass b k) bases
  | _ => false
  end.

(** [isinstance(err, k)] *)
Definition exn_isinstance (e : pyexn) (k : exn_class) : bool :=
  exn_issubclass (exn_cls e) k.

(** What calling a class does with the keyword arguments it receives. *)
Inductive ctor_result :=
  | CtorOk (attrs : dict)     (* the attributes of the new instance *)
  | CtorRaise (e : pyexn).

(** A class object.  [cls_id] is its identity (what [is] compares),
    [cls_bases] its [__bases__] tuple.  [cls_init] is the behaviour of
    calling the class with unpacked keywords: the callee owns the
    dictionary [kw] that the unpacking built for it, may mutate it, and
    the second component is that dictionary when the call ends. *)
Inductive pyclass := PyClass {
  cls_id : positive;
  cls_name : string;
  cls_bases : list pyclass;
  cls_init : dict -> ctor_result * dict
}.

Record instance := { inst_cls : pyclass; inst_attrs : dict }.

(** [a is b] on classes. *)
Definition class_is (a b : pyclass) : bool := Pos.eqb (cls_id a) (cls_id b).

(** [t in bases] on a tuple of classes: classes compare by identity. *)
Definition class_in (t : pyclass) (bases : list pyclass) : bool :=
  existsb (fun b => class_is b t) bases.

(** [issubclass(c, t)] for [c] other than [t]: the full ancestry, which
    the resolver does not use. *)
Fixpoint has_ancestor (t : pyclass) (c : pyclass) : bool :=
  match c with
  | PyClass _ _ bases _ =>
      existsb (fun b => class_is b t || has_ancestor t b) bases
  end.

(** ** Modules *)

(** A module attribute: [inspect.isclass] tells the two apart. *)
Inductive member :=
  | MClass (c : pyclass)
  | MValue (v : pyval).

Abbreviation namespace := (gmap string member).

(** A top-level statement, as far as the module namespace sees it: it
    binds a name (a [class] statement binds the class name, an
    assignment or import any name) or it raises. *)
Inductive stmt :=
  | Bind (name : string) (m : member)
  | Raise (e : pyexn).

(** [class C(bases): ...] *)
Definition ClassDef (c : pyclass) : stmt := Bind (cls_name c) (MClass c).

(** What is behind a module path: a file the loader cannot turn into
    code (it does not compile, or cannot be read), or the statements of
    its body. *)
Inductive source :=
  | Unloadable (e : pyexn)
  | Parsed (body : list stmt).

(** [importlib.util.module_from_spec(spec)] for the spec made by
    [spec_from_file_location('unknown', str(module_path))]: a fresh
    module with its import attributes, none of which is a class. *)
Definition module_from_spec (module_path : string) : namespace :=
  <["__name__" := MValue (VStr "unknown")]>
  (<["__doc__" := MValue VNone]>
  (<["__package__" := MValue (VStr EmptyString)]>
  (<["__loader__" := MValue (VOpaque "SourceFileLoader")]>
  (<["__spec__" := MValue (VOpaque "ModuleSpec")]>
  (<["__file__" := MValue (VStr module_path)]> ∅))))).

(** Running the body in the module's namespace: statements bind in
    order, and the first one that raises ends the execution, leaving in
    the module what was bound before it. *)
Fixpoint exec_body (body : list stmt) (ns : namespace) : namespace * option pyexn :=
  match body with
  | [] => (ns, None)
  | Bind x m :: rest => exec_body rest (<[x := m]> ns)
  | Raise e :: _ => (ns, Some e)
  end.

(** [spec.loader.exec_module(module)]: the module after the call, and
    the exception the call raised, if any. *)
Definition exec_module (module : namespace) (src : source) : namespace * option pyexn :=
  match src with
  | Unloadable e => (module, Some e)
  | Parsed body => exec_body body module
  end.

(** [inspect.getmembers(module, inspect.isclass)]: the attributes that
    are classes, sorted by name. *)
Definition class_members (ns : namespace) : list (string * pyclass) :=
  omap (fun kv => match kv.2 with
                  | MClass c => Some (kv.1, c)
                  | MValue _ => None
                  end) (map_to_list ns).

Definition getmembers_isclass (ns : namespace) : list (string * pyclass) :=
  merge_sort (fun a b => Is_true (String.leb a.1 b.1)) (class_members ns).

(** The generator expression of [_get_valid_object], as a list. *)
Definition valid_objects (object_type : pyclass) (object_name : string)
    (members : list (string * pyclass)) : list pyclass :=
  omap (fun kv =>
          if String.eqb object_name kv.1 && class_in object_type (cls_bases kv.2)
          then Some kv.2 else None) members.

(** ** Strings as Python formats them *)

(** [s.endswith(suffix)] *)
Definition endswith (s suffix : string) : bool :=
  let n := String.length s in
  let m := String.length suffix in
  (m <=? n)%nat && String.eqb (substring (n - m) m s) suffix.

Fixpoint str_contains (c : ascii) (s : string) : bool :=
  match s with
  | EmptyString => false
  | String d rest => Ascii.eqb c d || str_contains c rest
  end.

Definition hex_digit (n : nat) : ascii :=
  match n with
  | 0 => "0" | 1 => "1" | 2 => "2" | 3 => "3" | 4 => "4"
  | 5 => "5" | 6 => "6" | 7 => "7" | 8 => "8" | 9 => "9"
  | 10 => "a" | 11 => "b" | 12 => "c" | 13 => "d" | 14 => "e"
  | _ => "f"
  end%char.

Definition squote : ascii := "'"%char.
Definition dquote : ascii := "034"%char.
Definition backslash : ascii := "\"%char.

(** One character of [repr(s)] inside the quotes [q].  Bytes from 128
    up stand for the UTF-8 encoding of printable characters, which
    [repr] leaves as they are. *)
Definition repr_char (q c : ascii) : string :=
  let n := nat_of_ascii c in
  if Ascii.eqb c q || Ascii.eqb c backslash then String backslash (String c EmptyString)
  else if (n =? 9)%nat then "\t"
  else if (n =? 10)%nat then "\n"
  else if (n =? 13)%nat then "\r"
  else if (n <? 32)%nat || (n =? 127)%nat
       then String backslash (String "x" (String (hex_digit (n / 16))
              (String (hex_digit (n mod 16)) EmptyString)))
  else String c EmptyString.

Fixpoint repr_chars (q : ascii) (s : string) : string :=
  match s with
  | EmptyString => EmptyString
  | String c rest => repr_char q c +:+ repr_chars q rest
  end.

(** [repr(s)] of a [str]: single quotes, unless the string has a
    single quote and no double quote. *)
Definition str_repr (s : string) : string :=
  let q := if str_contains squote s && negb (str_contains dquote s)
           then dquote else squote in
  String q (repr_chars q s) +:+ String q EmptyString.

Fixpoint join (sep : string) (l : list string) : string :=
  match l with
  | [] => EmptyString
  | [x] => x
  | x :: rest => x +:+ sep +:+ join sep rest
  end.

(** [repr] of a list of [str], as an f-string replacement field prints it. *)
Definition list_repr (l : list string) : string :=
  "[" +:+ join ", " (str_repr <$> l) +:+ "]".

(** ** Effects: the heap of dictionaries, the log and the calls made *)

Definition loc := positive.

(** The dictionaries that are alive, by identity. *)
Abbreviation heap := (gmap loc dict).

Inductive log_level := DEBUG | WARNING.

(** What a run does that its caller, or a test, can observe. *)
Inductive event :=
  | EvLog (level : log_level) (msg : string)
  | EvExec (module_path : string)            (* [exec_module] was called on it *)
  | EvInit (c : pyclass) (kwargs : dict).    (* the class was called *)

Inductive result (A : Type) :=
  | Returned (a : A)
  | Raised (e : pyexn).
Arguments Returned {A} a.
Arguments Raised {A} e.

Record outcome (A : Type) := Outcome {
  out_res : result A;
  out_heap : heap;
  out_trace : list event
}.
Arguments Outcome {A} _ _ _.
Arguments out_res {A} _.
Arguments out_heap {A} _.
Arguments out_trace {A} _.

(** A computation that reads and writes the heap, appends to the trace
    and returns or raises. *)
Definition M (A : Type) : Type := heap -> outcome A.

#[export] Instance M_ret : MRet M := fun A a h => Outcome (Returned a) h [].

#[export] Instance M_bind : MBind M := fun A B k c h =>
  let o := c h in
  match out_res o with
  | Returned a =>
      let o' := k a (out_heap o) in
      Outcome (out_res o') (out_heap o') (out_trace o ++ out_trace o')
  | Raised e => Outcome (Raised e) (out_heap o) (out_trace o)
  end.

Definition raise {A} (e : pyexn) : M A := fun h => Outcome (Raised e) h [].

Definition emit (ev : event) : M () := fun h => Outcome (Returned ()) h [ev].

Definition logger_debug (msg : string) : M () := emit (EvLog DEBUG msg).
Definition logger_warning (msg : string) : M () := emit (EvLog WARNING msg).

(** [cls( **kwargs)] with [kwargs] the dictionary at [l]: the unpacking
    builds a new dictionary with the same items for the callee, so what
    the callee does to its keywords lands in that copy. *)
Definition call_class (c : pyclass) (l : loc) : M instance := fun h =>
  let kw := h !!! l in
  let callee_kw := fresh (dom h) in
  let '(r, kw') := cls_init c kw in
  Outcome (match r with
           | CtorOk attrs => Returned {| inst_cls := c; inst_attrs := attrs |}
           | CtorRaise e => Raised e
           end)
          (<[callee_kw := kw']> h)
          [EvInit c kw].

(** ** The resolver *)

(** The receiver of the class method: [IResolver] or a subclass, of
    which [_search_object] reads [type_name] only. *)
Record resolver := { type_name : string }.

Definition IResolver : resolver := {| type_name := "Unknown" |}.

(** [directory: Path], with what [directory.iterdir()] yields, each
    entry as [str(entry)], in the order of the iteration. *)
Record directory := { dir_str : string; dir_entries : list string }.

(** What [_search_object] returns: the pair [(None, None)], or the pair
    of the instance and its module path. *)
Inductive search_result :=
  | NotFound
  | Found (obj : instance) (module_path : string).

(** The [dict] made once by [kwargs: dict = {}] in the signature, which
    every call that omits [kwargs] receives. *)
Definition _search_object_default_kwargs : loc := 1%positive.

(** The heap when the class body of [IResolver] has run. *)
Definition heap_at_definition : heap := {[ _search_object_default_kwargs := ∅ ]}.

Definition ambiguity_message (type_label object_name : string)
    (modules : list string) : string :=
  "Cannot resolve object: found more than one objects of type `" +:+ type_label
  +:+ "` with name `" +:+ object_name +:+ "`. "
  +:+ "Use unique names for custom strategies, hyperopts and other custom objects "
  +:+ "so that Freqtrade can be able to resolve them. "
  +:+ "Found in modules: " +:+ list_repr modules.

Section Resolver.

(** The files, by module path. *)
Variable fs : gmap string source.

(** [str(Path.resolve(directory.joinpath(entry)))], from [str(directory)]
    and [str(entry)]. *)
Variable resolve_joinpath : string -> string -> string.

(** What the loader finds at a path; a path with no file behind it
    cannot be read. *)
Definition source_at (module_path : string) : source :=
  match fs !! module_path with
  | Some src => src
  | None => Unloadable {| exn_cls := OSError;
                          exn_msg := "No such file or directory: " +:+ str_repr module_path |}
  end.

(** The [except (ModuleNotFoundError, SyntaxError)] clause: does it
    take the exception? *)
Definition caught_on_import (err : pyexn) : bool :=
  exn_isinstance err ModuleNotFoundError || exn_isinstance err SyntaxError.

Definition _get_valid_object (object_type : pyclass) (module_path : string)
    (object_name : string) : M (option pyclass) :=
  let module := module_from_spec module_path in
  let '(module, raised) := exec_module module (source_at module_path) in
  emit (EvExec module_path) ;;
  match raised with
  | None => mret ()
  | Some err =>
      if caught_on_import err
      then logger_warning ("Could not import " +:+ module_path +:+ " due to '"
                           +:+ exn_msg err +:+ "'")
      else raise err
  end ;;
  let valid_objects_gen :=
    valid_objects object_type object_name (getmembers_isclass module) in
  mret (head valid_objects_gen).

(** The [for entry in directory.iterdir()] loop, from the entries still
    to come and [objs] so far.  A class object is true. *)
Fixpoint _search_object_loop (dir : string) (object_type : pyclass)
    (object_name : string) (entries : list string)
    (objs : list (pyclass * string)) : M (list (pyclass * string)) :=
  match entries with
  | [] => mret objs
  | entry :: rest =>
      if negb (endswith entry ".py") then
        logger_debug ("Ignoring " +:+ entry) ;;
        _search_object_loop dir object_type object_name rest objs
      else
        let module_path := resolve_joinpath dir entry in
        obj ← _get_valid_object object_type module_path object_name;
        match obj with
        | Some c =>
            _search_object_loop dir object_type object_name rest
              (objs ++ [(c, module_path)])
        | None => _search_object_loop dir object_type object_name rest objs
        end
  end.

(** [kwargs = None] is a call that leaves [kwargs] out. *)
Definition _search_object (self : resolver) (d : directory)
    (object_type : pyclass) (object_name : string) (kwargs : option loc)
    : M search_result :=
  let kwargs := default _search_object_default_kwargs kwargs in
  logger_debug ("Searching for " +:+ cls_name object_type +:+ " " +:+ object_name
                +:+ " in '" +:+ dir_str d +:+ "'") ;;
  objs ← _search_object_loop (dir_str d) object_type object_name (dir_entries d) [];
  match objs with
  | [] => mret NotFound
  | [(obj, module_path)] =>
      inst ← call_class obj kwargs;
      mret (Found inst module_path)
  | _ =>
      raise {| exn_cls := OperationalException;
               exn_msg := ambiguity_message (type_name self) object_name
                            (snd <$> objs) |}
  end.

(** *** What the claims are stated with *)

(** The module a path gives once loaded, and what loading it raised. *)
Definition load (module_path : string) : namespace * option pyexn :=
  exec_module (module_from_spec module_path) (source_at module_path).

(** A load that raises what the [except] clause does not take. *)
Definition load_aborts (module_path : string) : option pyexn :=
  match (load module_path).2 with
  | Some e => if caught_on_import e then None else Some e
  | None => None
  end.

Definition import_warning (module_path : string) (err : pyexn) : event :=
  EvLog WARNING ("Could not import " +:+ module_path +:+ " due to '"
                 +:+ exn_msg err +:+ "'").

(** The class an entry contributes when its load does not abort. *)
Definition entry_candidate (dir : string) (object_type : pyclass)
    (object_name entry : string) : option (pyclass * string) :=
  if endswith entry ".py" then
    let module_path := resolve_joinpath dir entry in
    c ← head (valid_objects object_type object_name
                (getmembers_isclass (load module_path).1));
    Some (c, module_path)
  else None.

Definition is_init (ev : event) : bool :=
  match ev with EvInit _ _ => true | _ => false end.

Definition exec_path (ev : event) : option string :=
  match ev with EvExec p => Some p | _ => None end.

Definition search_debug (d : directory) (object_type : pyclass)
    (object_name : string) : event :=
  EvLog DEBUG ("Searching for " +:+ cls_name object_type +:+ " " +:+ object_name
               +:+ " in '" +:+ dir_str d +:+ "'").

Definition ambiguity_error (self : resolver) (object_name : string)
    (objs : list (pyclass * string)) : pyexn :=
  {| exn_cls := OperationalException;
     exn_msg := ambiguity_message (type_name self) object_name (snd <$> objs) |}.

End Resolver.

(** The heaps a program reaches: from the definition of the class, by
    its callers building or changing dictionaries of their own (the
    default of the signature is not one of them), and by calls of
    [_search_object], whatever the files and the arguments are. *)
Inductive reachable : heap -> Prop :=
  | reach_definition : reachable heap_at_definition
  | reach_caller h l kw :
      reachable h -> l <> _search_object_default_kwargs ->
      reachable (<[l := kw]> h)
  | reach_search h fs resolve_joinpath self d t n kwargs :
      reachable h ->
      reachable (out_heap (_search_object fs resolve_joinpath self d t n kwargs h)).

(** ** A strategy directory *)

Module Fixture.

(** A constructor that keeps its keywords as attributes, and pops
    [config] from its own keyword dictionary on the way. *)
Definition recording_init (kw : dict) : ctor_result * dict :=
  (CtorOk kw, delete "config" kw).

(** A constructor that insists on [paramA]. *)
Definition picky_init (kw : dict) : ctor_result * dict :=
  match kw !! "paramA" with
  | Some _ => (CtorOk kw, kw)
  | None => (CtorRaise {| exn_cls := TypeError;
                          exn_msg := "__init__() missing 1 required keyword-only argument: 'paramA'" |},
             kw)
  end.

Definition IStrategy : pyclass := PyClass 10 "IStrategy" [] recording_init.
Definition MyStrat : pyclass := PyClass 11 "MyStrat" [IStrategy] recording_init.
Definition MyStrat2 : pyclass := PyClass 12 "MyStrat" [IStrategy] recording_init.
Definition Other : pyclass := PyClass 13 "Other" [IStrategy] recording_init.
Definition Mid : pyclass := PyClass 14 "Mid" [IStrategy] recording_init.
Definition DeepStrat : pyclass := PyClass 15 "MyStrat" [Mid] recording_init.
Definition PickyStrat : pyclass := PyClass 16 "MyStrat" [IStrategy] picky_init.

Definition no_talib : pyexn :=
  {| exn_cls := ModuleNotFoundError; exn_msg := "No module named 'talib'" |}.
Definition bad_syntax : pyexn :=
  {| exn_cls := SyntaxError; exn_msg := "invalid syntax (Broken.py, line 1)" |}.
Definition no_name : pyexn :=
  {| exn_cls := NameError; exn_msg := "name 'undefined_helper' is not defined" |}.

(** The files of the fixture. *)
Definition files : gmap string source :=
  list_to_map [
    ("/strats/Foo.py", Parsed [Bind "IStrategy" (MClass IStrategy); ClassDef MyStrat]);
    ("/strats/Bar.py", Parsed [Bind "IStrategy" (MClass IStrategy); ClassDef Other]);
    ("/strats/Dup.py", Parsed [Bind "IStrategy" (MClass IStrategy); ClassDef MyStrat2]);
    ("/strats/Broken.py", Unloadable bad_syntax);
    ("/strats/NoTalib.py", Parsed [Raise no_talib; ClassDef Other]);
    ("/strats/Late.py", Parsed [Bind "IStrategy" (MClass IStrategy); ClassDef MyStrat;
                                Raise no_talib]);
    ("/strats/Crash.py", Parsed [Raise no_name]);
    ("/strats/Deep.py", Parsed [ClassDef Mid; ClassDef DeepStrat]);
    ("/strats/Picky.py", Parsed [ClassDef PickyStrat]);
    ("/builtin/Default.py", Parsed [Bind "IStrategy" (MClass IStrategy); ClassDef MyStrat2])
  ].

(** For an absolute, normalised directory, [iterdir] entries carry the
    directory, [joinpath] returns the entry and [resolve] keeps it. *)
Definition absolute (dir entry : string) : string := entry.

Definition StrategyResolver : resolver := {| type_name := "Strategy" |}.

Definition listing (dir : string) (names : list string) : directory :=
  {| dir_str := dir; dir_entries := (fun name => dir +:+ "/" +:+ name) <$> names |}.

Definition search (d : directory) (object_name : string) (kwargs : option loc) : M search_result :=
  _search_object files absolute StrategyResolver d IStrategy object_name kwargs.

Definition scan (d : directory) (object_name : string) : M (list (pyclass * string)) :=
  _search_object_loop files absolute (dir_str d) IStrategy object_name (dir_entries d) [].

Definition dir_one : directory :=
  listing "/strats" ["Foo.py"; "README.md"; "Bar.py"; "Broken.py"].
Definition dir_dup : directory := listing "/strats" ["Foo.py"; "Bar.py"; "Dup.py"].
Definition dir_none : directory := listing "/strats" ["README.md"; "Bar.py"].
Definition dir_user : directory := listing "/strats" ["Foo.py"].
Definition dir_builtin : directory := listing "/builtin" ["Default.py"].
Definition dir_late : directory := listing "/strats" ["NoTalib.py"; "Late.py"; "Bar.py"].
Definition dir_picky : directory := listing "/strats" ["Picky.py"].

Definition dir_crash : directory := listing "/strats" ["Crash.py"; "Foo.py"].

(** A caller's own dictionary [{'paramA': 5}]. *)
Definition params : loc := 5%positive.
Definition heap_with_params : heap :=
  <[params := {["paramA" := VInt 5]}]> heap_at_definition.

(** A caller's own dictionary [{'config': 1}]. *)
Definition heap_with_config : heap :=
  <[params := {["config" := VInt 1]}]> heap_at_definition.

End Fixture.

(** ** Reading a trace *)

(** [s.startswith(prefix)] *)
Fixpoint startswith (s prefix : string) {struct prefix} : bool :=
  match prefix with
  | EmptyString => true
  | String a prefix' =>
      match s with
      | EmptyString => false
      | String b s' => Ascii.eqb a b && startswith s' prefix'
      end
  end.

(** The debug record of an entry that is not a Python file. *)
Definition ignoring_log (entry : string) : event :=
  EvLog DEBUG ("Ignoring " +:+ entry).

Definition is_ignoring_log (ev : event) : bool :=
  match ev with
  | EvLog DEBUG msg => startswith msg "Ignoring "
  | _ => false
  end.

Definition is_warning (ev : event) : bool :=
  match ev with EvLog WARNING _ => true | _ => false end.

(** The directory with the entries that pass the [.py] test only. *)
Definition python_entries (d : directory) : directory :=
  {| dir_str := dir_str d;
     dir_entries := filter (fun entry => endswith entry ".py" = true) (dir_entries d) |}.

(** The warning an entry causes: that of a [.py] entry whose load
    raised what the [except] clause takes. *)
Definition entry_warning (fs : gmap string source)
    (resolve_joinpath : string -> string -> string) (dir entry : string)
    : option event :=
  if endswith entry ".py" then
    let module_path := resolve_joinpath dir entry in
    match (load fs module_path).2 with
    | Some e => if caught_on_import e then Some (import_warning module_path e) else None
    | None => None
    end
  else None.

(** More listings of the strategy directory. *)
Module Listings.
Import Fixture.

Definition dir_crash_late : directory :=
  listing "/strats" ["Bar.py"; "README.md"; "Crash.py"; "Foo.py"].
Definition dir_notes : directory := listing "/strats" ["README.md"; "notes.txt"].

(** A file with mixed tabs and spaces, and one that raises a plugin's
    own subclass of [ModuleNotFoundError]. *)
Definition tab_error : pyexn :=
  {| exn_cls := TabError;
     exn_msg := "inconsistent use of tabs and spaces in indentation (Tabs.py, line 3)" |}.
Definition plugin_missing : pyexn :=
  {| exn_cls := OtherException "PluginNotInstalled" [ModuleNotFoundError];
     exn_msg := "plugin 'ta' is not installed" |}.
Definition files_with_subclasses : gmap string source :=
  <["/strats/Tabs.py" := Unloadable tab_error]>
  (<["/strats/Plugin.py" := Parsed [Raise plugin_missing]]> files).
Definition dir_subclasses : directory :=
  listing "/strats" ["Tabs.py"; "Plugin.py"; "Foo.py"].
Definition dir_empty : directory := listing "/strats" [].

End Listings.

(** * Python strings: [in], [replace], [split], [lower], [re.sub] *)

(** [needle in s] on strings. *)
Fixpoint str_in (needle s : string) : bool :=
  startswith s needle ||
  match s with
  | EmptyString => false
  | String _ rest => str_in needle rest
  end.

(** [s.replace(old, new)] for a non-empty [old]: the occurrences of
    [old] are taken from the left and do not overlap.  [skip] counts
    the characters of an occurrence that are still to be passed over. *)
Fixpoint replace_from (old new : string) (skip : nat) (s : string) : string :=
  match s with
  | EmptyString => EmptyString
  | String c rest =>
      match skip with
      | S k => replace_from old new k rest
      | O =>
          if startswith s old
          then new +:+ replace_from old new (String.length old - 1) rest
          else String c (replace_from old new 0 rest)
      end
  end.

Definition str_replace (old new s : string) : string := replace_from old new 0 s.

Definition newline : ascii := "010"%char.

(** [s.split("\n")[0]]: what comes before the first newline. *)
Fixpoint first_line (s : string) : string :=
  match s with
  | EmptyString => EmptyString
  | String c rest => if Ascii.eqb c newline then EmptyString else String c (first_line rest)
  end.

(** [re.sub(word + last + '?', repl, s)] for a literal, non-empty
    [word]: at each place from the left the pattern matches when [word]
    starts there, and takes [last] too when it follows; matches do not
    overlap.  [skip] is as in [replace_from]. *)
Fixpoint sub_optional_from (word : string) (last : ascii) (repl : string)
    (skip : nat) (s : string) : string :=
  match s with
  | EmptyString => EmptyString
  | String c rest =>
      match skip with
      | S k => sub_optional_from word last repl k rest
      | O =>
          if startswith s (word +:+ String last EmptyString)
          then repl +:+ sub_optional_from word last repl (String.length word) rest
          else if startswith s word
          then repl +:+ sub_optional_from word last repl (String.length word - 1) rest
          else String c (sub_optional_from word last repl 0 rest)
      end
  end.

Definition re_sub_optional (word : string) (last : ascii) (repl s : string) : string :=
  sub_optional_from word last repl 0 s.

(** [re.sub('^an?', repl, s)]: the pattern matches at the start only. *)
Definition re_sub_leading_an (repl s : string) : string :=
  match s with
  | String "a" (String "n" rest) => repl +:+ rest
  | String "a" rest => repl +:+ rest
  | _ => s
  end.

(** * [freqtrade/rpc/__init__.py] *)

Module Rpc.

(** [config]: a dict of sections, each a dict. *)
Abbreviation config := (gmap string dict).

(** The truth value of a plain value. *)
Definition truthy (v : pyval) : bool :=
  match v with
  | VNone => false
  | VBool b => b
  | VInt z => negb (z =? 0)%Z
  | VStr s => negb (String.eqb s EmptyString)
  | VOpaque _ => true
  end.

(** What the functions do to the logger and to [telegram]. *)
Inductive rpc_event :=
  | LogInfo (msg : string)
  | LogDebug (msg : string)
  | TelegramInit (cfg : config)
  | TelegramCleanup
  | TelegramSendMsg (msg : string).

(** A call from the module-level list [REGISTERED_MODULES] as it was:
    whether it returned or raised, the list afterwards, and the events. *)
Record rpc_outcome := RpcOutcome {
  rpc_res : result ();
  rpc_registered : list string;
  rpc_trace : list rpc_event
}.

(** The sibling module [telegram] of the package: for each of its
    three functions, the exception it raises, if it raises.  They do
    not touch [REGISTERED_MODULES]. *)
Record telegram_module := {
  telegram_init : config -> option pyexn;
  telegram_cleanup : option pyexn;
  telegram_send_msg : string -> option pyexn
}.

Definition returns_or_raises (r : option pyexn) : result () :=
  match r with
  | None => Returned ()
  | Some e => Raised e
  end.

Definition key_error (key : string) : pyexn :=
  {| exn_cls := OtherException "KeyError" [OtherException "LookupError" []];
     exn_msg := str_repr key |}.

Section Functions.

Variable telegram : telegram_module.

Definition init (cfg : config) (REGISTERED_MODULES : list string) : rpc_outcome :=
  match cfg !! "telegram" with
  | None => RpcOutcome (Raised (key_error "telegram")) REGISTERED_MODULES []
  | Some section =>
      if truthy (default (VBool false) (section !! "enabled")) then
        RpcOutcome (returns_or_raises (telegram_init telegram cfg))
                   (REGISTERED_MODULES ++ ["telegram"])
                   [LogInfo "Enabling rpc.telegram ..."; TelegramInit cfg]
      else RpcOutcome (Returned ()) REGISTERED_MODULES []
  end.

Definition cleanup (REGISTERED_MODULES : list string) : rpc_outcome :=
  if bool_decide ("telegram" ∈ REGISTERED_MODULES) then
    RpcOutcome (returns_or_raises (telegram_cleanup telegram)) REGISTERED_MODULES
               [LogDebug "Cleaning up rpc.telegram ..."; TelegramCleanup]
  else RpcOutcome (Returned ()) REGISTERED_MODULES [].

Definition send_msg (msg : string) (REGISTERED_MODULES : list string) : rpc_outcome :=
  if bool_decide ("telegram" ∈ REGISTERED_MODULES) then
    RpcOutcome (returns_or_raises (telegram_send_msg telegram msg)) REGISTERED_MODULES
               [LogInfo msg; TelegramSendMsg msg]
  else RpcOutcome (Returned ()) REGISTERED_MODULES [LogInfo msg].

(** A program's use of the module: calls, one after the other, each
    from the list the one before left, whether that one raised or not. *)
Inductive rpc_call :=
  | CallInit (cfg : config)
  | CallCleanup
  | CallSendMsg (msg : string).

Definition run_call (c : rpc_call) (registered : list string) : rpc_outcome :=
  match c with
  | CallInit cfg => init cfg registered
  | CallCleanup => cleanup registered
  | CallSendMsg msg => send_msg msg registered
  end.

Definition registered_after (calls : list rpc_call) (registered : list string) : list string :=
  foldl (fun reg c => rpc_registered (run_call c reg)) registered calls.

End Functions.

(** Does the configuration have telegram enabled, as [init] reads it? *)
Definition telegram_enabled (cfg : config) : bool :=
  match cfg !! "telegram" with
  | Some section => truthy (default (VBool false) (section !! "enabled"))
  | None => false
  end.

Definition enables_telegram (c : rpc_call) : bool :=
  match c with
  | CallInit cfg => telegram_enabled cfg
  | _ => false
  end.

Definition shorten_date (_date : string) : string :=
  let new_date := re_sub_optional "second" "s" "sec" _date in
  let new_date := re_sub_optional "minute" "s" "min" new_date in
  let new_date := re_sub_optional "hour" "s" "h" new_date in
  let new_date := re_sub_optional "day" "s" "d" new_date in
  let new_date := re_sub_leading_an "1" new_date in
  new_date.

(** A telegram module whose [init] fails and whose other functions work. *)
Definition flaky_telegram : telegram_module :=
  {| telegram_init :=
       fun _ => Some {| exn_cls := OtherException "NetworkError"
                                     [OtherException "TelegramError" []];
                        exn_msg := "Timed out" |};
     telegram_cleanup := None;
     telegram_send_msg := fun _ => None |}.

Definition config_enabled : config :=
  {[ "telegram" := {[ "enabled" := VBool true; "token" := VStr "t0ken" ]} ]}.
Definition config_disabled : config :=
  {[ "telegram" := {[ "enabled" := VBool false ]} ]}.
Definition config_silent : config :=
  {[ "telegram" := {[ "token" := VStr "t0ken" ]} ]}.
Definition config_without_section : config :=
  {[ "exchange" := {[ "name" := VStr "bittrex" ]} ]}.

End Rpc.

(** * [wao/error_watcher.py] *)

Module ErrorWatcher.

(** [c.lower()] for a character of text decoded as latin-1, which is
    what [on_created] passes on: the letters [A] to [Z], and the
    letters from 192 to 222 but for the sign at 215, are 32 below their
    lower-case forms. *)
Definition lower_char (c : ascii) : ascii :=
  let n := nat_of_ascii c in
  if ((65 <=? n) && (n <=? 90)) || ((192 <=? n) && (n <=? 222) && negb (n =? 215))
  then ascii_of_nat (n + 32)
  else c.

Fixpoint str_lower (s : string) : string :=
  match s with
  | EmptyString => EmptyString
  | String c rest => String (lower_char c) (str_lower rest)
  end.

Definition __freqtrade_error_case (out_put_string : string) : bool :=
  let lower_string := str_lower out_put_string in
  str_in "freqtrade" lower_string &&
  (str_in "warning" lower_string || str_in "error" lower_string).

(** The last argument of the stop command, as both handlers build it
    from the output. *)
Definition stop_bot_argument (out_put_string : string) : string :=
  str_replace ")" EmptyString
    (str_replace "(" EmptyString
      (str_replace " " "#"
        (str_replace ": " ":"
          (str_replace "_" EmptyString (first_line out_put_string))))).

Section Handlers.

(** [BrainConfig.EXECUTION_PATH] and [str(BrainConfig.MODE)]. *)
Variable EXECUTION_PATH : string.
Variable MODE : string.

(** What a command run by [/bin/bash] writes to its standard output,
    decoded as latin-1. *)
Variable popen : string -> string.

Definition stop_bot_command (out_put_string : string) : string :=
  "python3 " +:+ EXECUTION_PATH +:+ "/stop_bot.py " +:+ MODE +:+ " "
  +:+ stop_bot_argument out_put_string.

(** [on_created(event)], from [event.src_path]: the commands it runs,
    in order. *)
Definition on_created (src_path : string) : list string :=
  let file_name := src_path in
  let error_check_command :=
    "grep error " +:+ file_name +:+ " && grep exception "
    +:+ file_name +:+ " && grep Error " +:+ file_name +:+ " && grep Exception " +:+ file_name
    +:+ file_name +:+ " && grep ERROR " +:+ file_name +:+ " && grep EXCEPTION " +:+ file_name in
  let out_put_string := popen error_check_command in
  if negb (__freqtrade_error_case out_put_string)
  then [error_check_command; stop_bot_command out_put_string]
  else [error_check_command].

End Handlers.

End ErrorWatcher.

(** * Properties *)

(** ** The matcher on a namespace *)

Lemma head_omap_first {A B} (f : A -> option B) (l : list A) (b : B) :
  head (omap f l) = Some b ->
  exists pre x post, l = pre ++ x :: post /\ f x = Some b /\ Forall (fun y => f y = None) pre.
Proof.
  induction l as [|a l IH]; simpl; [discriminate|].
  destruct (f a) as [b'|] eqn:Hfa; simpl.
  - intros [= ->]. exists [], a, l. by repeat split.
  - intros H. destruct (IH H) as (pre & x & post & -> & Hx & Hpre).
    exists (a :: pre), x, post. repeat split; [done|by constructor].
Qed.

Lemma omap_cons_eq {A B} (f : A -> option B) (x : A) (l : list A) :
  omap f (x :: l) = match f x with Some y => y :: omap f l | None => omap f l end.
Proof. reflexivity. Qed.

Lemma elem_of_getmembers_isclass (ns : namespace) (k : string) (c : pyclass) :
  (k, c) ∈ getmembers_isclass ns <-> ns !! k = Some (MClass c).
Proof.
  unfold getmembers_isclass, class_members.
  rewrite merge_sort_Permutation, list_elem_of_omap. split.
  - intros ([k' m] & Hin & Hm). apply elem_of_map_to_list in Hin.
    simpl in Hm. destruct m; [|discriminate]. by simplify_eq.
  - intros H. exists (k, MClass c). split; [by apply elem_of_map_to_list|done].
Qed.

Lemma elem_of_valid_objects t n ms (c : pyclass) :
  c ∈ valid_objects t n ms <-> (n, c) ∈ ms /\ class_in t (cls_bases c) = true.
Proof.
  unfold valid_objects. rewrite list_elem_of_omap. split.
  - intros ([k c'] & Hin & Hf). simpl in Hf.
    destruct (String.eqb n k) eqn:Hk; [|discriminate].
    destruct (class_in t (cls_bases c')) eqn:Hb; [|discriminate].
    apply String.eqb_eq in Hk. simpl in Hf. by simplify_eq.
  - intros [Hin Hb]. exists (n, c). split; [done|]. simpl.
    by rewrite String.eqb_refl, Hb.
Qed.

(** The name decides the class: a namespace binds a name once. *)
Lemma head_valid_objects (ns : namespace) t n (c : pyclass) :
  head (valid_objects t n (getmembers_isclass ns)) = Some c <->
  ns !! n = Some (MClass c) /\ class_in t (cls_bases c) = true.
Proof.
  rewrite <- elem_of_getmembers_isclass, <- elem_of_valid_objects. split.
  - apply head_Some_elem_of.
  - intros Hc. destruct (valid_objects t n (getmembers_isclass ns)) as [|c' l] eqn:Hl.
    + by apply elem_of_nil in Hc.
    + simpl. f_equal.
      assert (Hc' : c' ∈ valid_objects t n (getmembers_isclass ns))
        by (rewrite Hl; left).
      rewrite <- Hl in Hc.
      apply elem_of_valid_objects in Hc as [Hc _], Hc' as [Hc' _].
      apply elem_of_getmembers_isclass in Hc, Hc'. congruence.
Qed.

(** ** Running the resolver *)

Section ResolverFacts.

Variable fs : gmap string source.
Variable resolve_joinpath : string -> string -> string.

Lemma get_valid_object_run t p n h :
  _get_valid_object fs t p n h =
  let found := head (valid_objects t n (getmembers_isclass (load fs p).1)) in
  match (load fs p).2 with
  | None => Outcome (Returned found) h [EvExec p]
  | Some e =>
      if caught_on_import e
      then Outcome (Returned found) h [EvExec p; import_warning p e]
      else Outcome (Raised e) h [EvExec p]
  end.
Proof.
  unfold _get_valid_object, load.
  destruct (exec_module _ _) as [ns [e|]]; simpl; [|done].
  by destruct (caught_on_import e).
Qed.

Lemma get_valid_object_heap t p n h :
  out_heap (_get_valid_object fs t p n h) = h.
Proof.
  rewrite get_valid_object_run. simpl.
  destruct (load fs p).2 as [e|]; [|done]. by destruct (caught_on_import e).
Qed.

Lemma get_valid_object_no_init t p n h :
  filter is_init (out_trace (_get_valid_object fs t p n h)) = [].
Proof.
  rewrite get_valid_object_run. simpl.
  destruct (load fs p).2 as [e|]; [|done]. by destruct (caught_on_import e).
Qed.

Lemma get_valid_object_heap_indep t p n h h' :
  out_res (_get_valid_object fs t p n h) = out_res (_get_valid_object fs t p n h') /\
  out_trace (_get_valid_object fs t p n h) = out_trace (_get_valid_object fs t p n h').
Proof.
  rewrite !get_valid_object_run. simpl.
  destruct (load fs p).2 as [e|]; [|done]. by destruct (caught_on_import e).
Qed.

(** One turn of the loop on a [.py] entry. *)
Lemma search_loop_py dir t n entry rest objs h :
  endswith entry ".py" = true ->
  _search_object_loop fs resolve_joinpath dir t n (entry :: rest) objs h =
  let p := resolve_joinpath dir entry in
  let o := _get_valid_object fs t p n h in
  match out_res o with
  | Returned obj =>
      let o' := _search_object_loop fs resolve_joinpath dir t n rest
                  (match obj with Some c => objs ++ [(c, p)] | None => objs end)
                  (out_heap o) in
      Outcome (out_res o') (out_heap o') (out_trace o ++ out_trace o')
  | Raised e => Outcome (Raised e) (out_heap o) (out_trace o)
  end.
Proof.
  intros Hpy. simpl. rewrite Hpy. simpl.
  unfold mbind, M_bind at 1.
  destruct (out_res (_get_valid_object _ _ _ _ _)) as [[c|]|e]; done.
Qed.

Lemma search_loop_skip dir t n entry rest objs h :
  endswith entry ".py" = false ->
  _search_object_loop fs resolve_joinpath dir t n (entry :: rest) objs h =
  let o' := _search_object_loop fs resolve_joinpath dir t n rest objs h in
  Outcome (out_res o') (out_heap o') (EvLog DEBUG ("Ignoring " +:+ entry) :: out_trace o').
Proof. intros Hpy. simpl. by rewrite Hpy. Qed.

Lemma search_loop_heap dir t n entries objs h :
  out_heap (_search_object_loop fs resolve_joinpath dir t n entries objs h) = h.
Proof.
  revert objs h. induction entries as [|entry rest IH]; intros objs h; [done|].
  destruct (endswith entry ".py") eqn:Hpy.
  - rewrite search_loop_py by done. simpl.
    pose proof (get_valid_object_heap t (resolve_joinpath dir entry) n h) as Hh.
    destruct (out_res _); simpl; [|done]. by rewrite IH.
  - rewrite search_loop_skip by done. simpl. apply IH.
Qed.

Lemma search_loop_no_init dir t n entries objs h :
  filter is_init (out_trace (_search_object_loop fs resolve_joinpath dir t n entries objs h)) = [].
Proof.
  revert objs h. induction entries as [|entry rest IH]; intros objs h; [done|].
  destruct (endswith entry ".py") eqn:Hpy.
  - rewrite search_loop_py by done. simpl.
    pose proof (get_valid_object_no_init t (resolve_joinpath dir entry) n h) as Hn.
    destruct (out_res _); simpl; [|done].
    by rewrite filter_app, Hn, IH.
  - rewrite search_loop_skip by done. simpl. apply IH.
Qed.

Lemma search_loop_heap_indep dir t n entries objs h h' :
  out_res (_search_object_loop fs resolve_joinpath dir t n entries objs h) =
    out_res (_search_object_loop fs resolve_joinpath dir t n entries objs h') /\
  out_trace (_search_object_loop fs resolve_joinpath dir t n entries objs h) =
    out_trace (_search_object_loop fs resolve_joinpath dir t n entries objs h').
Proof.
  revert objs h h'. induction entries as [|entry rest IH]; intros objs h h'; [done|].
  destruct (endswith entry ".py") eqn:Hpy.
  - rewrite !search_loop_py by done. simpl.
    destruct (get_valid_object_heap_indep t (resolve_joinpath dir entry) n h h') as [Hr Ht].
    rewrite !get_valid_object_heap, <- Hr, <- Ht.
    destruct (out_res _) as [obj|e]; simpl; [|done].
    destruct (IH (match obj with Some c => objs ++ [(c, resolve_joinpath dir entry)]
                  | None => objs end) h h') as [-> ->]. done.
  - rewrite !search_loop_skip by done. simpl.
    destruct (IH objs h h') as [-> ->]. done.
Qed.

(** What the loop returns, when it returns: [objs] and then the
    candidates of the entries, in the order of the iteration. *)
Lemma search_loop_returned dir t n entries objs h objs' :
  out_res (_search_object_loop fs resolve_joinpath dir t n entries objs h) = Returned objs' ->
  objs' = objs ++ omap (entry_candidate fs resolve_joinpath dir t n) entries.
Proof.
  revert objs h. induction entries as [|entry rest IH]; intros objs h.
  - simpl. intros [= <-]. by rewrite app_nil_r.
  - simpl omap. unfold entry_candidate at 1.
    destruct (endswith entry ".py") eqn:Hpy.
    + rewrite search_loop_py by done. simpl.
      rewrite get_valid_object_run. simpl.
      destruct (load fs (resolve_joinpath dir entry)) as [ns [e|]]; simpl.
      * destruct (caught_on_import e); simpl; [|discriminate].
        intros H. apply IH in H. subst objs'.
        destruct (head _); simpl; [by rewrite <- app_assoc|done].
      * intros H. apply IH in H. subst objs'.
        destruct (head _); simpl; [by rewrite <- app_assoc|done].
    + rewrite search_loop_skip by done. simpl. apply IH.
Qed.

(** The loop returns when no load aborts, and then it has run the
    top-level code of every [.py] entry. *)
Lemma search_loop_completes dir t n entries objs h :
  Forall (fun entry => endswith entry ".py" = true ->
                       load_aborts fs (resolve_joinpath dir entry) = None) entries ->
  let o := _search_object_loop fs resolve_joinpath dir t n entries objs h in
  out_res o = Returned (objs ++ omap (entry_candidate fs resolve_joinpath dir t n) entries) /\
  omap exec_path (out_trace o) =
    resolve_joinpath dir <$> filter (fun entry => endswith entry ".py" = true) entries.
Proof.
  revert objs h. induction entries as [|entry rest IH]; intros objs h Hall.
  - simpl. by rewrite app_nil_r.
  - apply Forall_cons in Hall as [Hentry Hall].
    simpl omap. unfold entry_candidate at 1. rewrite filter_cons.
    destruct (endswith entry ".py") eqn:Hpy.
    + specialize (Hentry eq_refl). unfold load_aborts in Hentry.
      rewrite search_loop_py by done. simpl.
      rewrite get_valid_object_run. simpl.
      destruct (load fs (resolve_joinpath dir entry)) as [ns [e|]]; simpl in *.
      * destruct (caught_on_import e); [|discriminate]. simpl.
        destruct (head _) as [c|]; simpl;
          match goal with |- context [_search_object_loop _ _ _ _ _ _ ?acc _] =>
            destruct (IH acc h Hall) as [E1 E2] end;
          (split; [rewrite E1; by rewrite <- ?app_assoc|f_equal; exact E2]).
      * destruct (head _) as [c|]; simpl;
          match goal with |- context [_search_object_loop _ _ _ _ _ _ ?acc _] =>
            destruct (IH acc h Hall) as [E1 E2] end;
          (split; [rewrite E1; by rewrite <- ?app_assoc|f_equal; exact E2]).
    + rewrite search_loop_skip by done. simpl. by apply IH.
Qed.

(** [_search_object] by the three lengths of [objs]. *)
Lemma search_object_run self d t n kwargs h :
  _search_object fs resolve_joinpath self d t n kwargs h =
  let o := _search_object_loop fs resolve_joinpath (dir_str d) t n (dir_entries d) [] h in
  let pre := search_debug d t n :: out_trace o in
  match out_res o with
  | Raised e => Outcome (Raised e) h pre
  | Returned [] => Outcome (Returned NotFound) h pre
  | Returned [(c, p)] =>
      let oc := call_class c (default _search_object_default_kwargs kwargs) h in
      Outcome (match out_res oc with
               | Returned inst => Returned (Found inst p)
               | Raised e => Raised e
               end) (out_heap oc) (pre ++ out_trace oc)
  | Returned objs => Outcome (Raised (ambiguity_error self n objs)) h pre
  end.
Proof.
  unfold _search_object, search_debug, ambiguity_error, mbind, M_bind. simpl.
  pose proof (search_loop_heap (dir_str d) t n (dir_entries d) [] h) as Hh.
  destruct (_search_object_loop fs resolve_joinpath (dir_str d) t n (dir_entries d) [] h)
    as [r h' tr].
  simpl in *. subst h'.
  destruct r as [[|[c p] [|x objs]]|e]; simpl; rewrite ?app_nil_r; try done.
  destruct (out_res (call_class c _ h)); simpl; by rewrite ?app_nil_r.
Qed.

End ResolverFacts.

(** ** Claims about the scan and the decision *)

Section Claims.

Variable fs : gmap string source.
Variable resolve_joinpath : string -> string -> string.

Abbreviation scan d t n h :=
  (_search_object_loop fs resolve_joinpath (dir_str d) t n (dir_entries d) [] h).
Abbreviation search self d t n kwargs h :=
  (_search_object fs resolve_joinpath self d t n kwargs h).
Abbreviation candidates d t n :=
  (omap (entry_candidate fs resolve_joinpath (dir_str d) t n) (dir_entries d)).
Abbreviation supplied kwargs h :=
  (h !!! default _search_object_default_kwargs kwargs).

Lemma call_class_trace c l h : out_trace (call_class c l h) = [EvInit c (h !!! l)].
Proof. unfold call_class. by destruct (cls_init c (h !!! l)). Qed.

Lemma call_class_res c l h :
  out_res (call_class c l h) =
  match (cls_init c (h !!! l)).1 with
  | CtorOk attrs => Returned {| inst_cls := c; inst_attrs := attrs |}
  | CtorRaise e => Raised e
  end.
Proof. unfold call_class. by destruct (cls_init c (h !!! l)). Qed.

Lemma call_class_frame c l h (l' : loc) :
  is_Some (h !! l') -> out_heap (call_class c l h) !! l' = h !! l'.
Proof.
  intros Hl'. unfold call_class. destruct (cls_init c (h !!! l)). simpl.
  apply lookup_insert_ne. intros Heq.
  apply (is_fresh (dom h)). rewrite Heq. by apply elem_of_dom.
Qed.

Lemma search_object_no_init_unless_one self d t n kwargs h :
  (forall c p, out_res (scan d t n h) <> Returned [(c, p)]) ->
  filter is_init (out_trace (search self d t n kwargs h)) = [].
Proof.
  intros Hne. rewrite search_object_run. simpl.
  pose proof (search_loop_no_init fs resolve_joinpath (dir_str d) t n (dir_entries d) [] h) as Hn.
  destruct (out_res (scan d t n h)) as [[|[c p] [|x objs]]|e] eqn:Hr; simpl;
    try exact Hn.
  by destruct (Hne c p).
Qed.

Lemma search_object_ambiguous self d t n kwargs h objs :
  out_res (scan d t n h) = Returned objs ->
  2 <= length objs ->
  out_res (search self d t n kwargs h) = Raised (ambiguity_error self n objs) /\
  filter is_init (out_trace (search self d t n kwargs h)) = [] /\
  out_heap (search self d t n kwargs h) = h.
Proof.
  intros Hscan Hlen. split; [|split].
  - rewrite search_object_run. simpl. rewrite Hscan.
    destruct objs as [|[c p] [|x objs]]; simpl in Hlen; [lia|lia|done].
  - apply search_object_no_init_unless_one. intros c p Hone.
    rewrite Hscan in Hone. injection Hone as ->. simpl in Hlen. lia.
  - rewrite search_object_run. simpl. rewrite Hscan.
    destruct objs as [|[c p] [|x objs]]; simpl in Hlen; [lia|lia|done].
Qed.

(** C1: when the scan of a directory yields two or more candidates,
    [_search_object] raises an [OperationalException] whose message
    holds the resolver's type label, the requested name and the [repr]
    of the list of the colliding module paths, which are those of the
    matching entries in the order of the iteration; no class is called
    and the heap is as before. *)
Theorem ambiguous_directory_raises self d t n kwargs h objs :
  out_res (scan d t n h) = Returned objs ->
  2 <= length objs ->
  let o := search self d t n kwargs h in
  out_res o =
    Raised {| exn_cls := OperationalException;
              exn_msg :=
                "Cannot resolve object: found more than one objects of type `"
                +:+ type_name self +:+ "` with name `" +:+ n +:+ "`. "
                +:+ "Use unique names for custom strategies, hyperopts and other custom objects "
                +:+ "so that Freqtrade can be able to resolve them. "
                +:+ "Found in modules: " +:+ list_repr (snd <$> objs) |} /\
  objs = candidates d t n /\
  filter is_init (out_trace o) = [] /\
  out_heap o = h.
Proof.
  intros Hscan Hlen o. subst o.
  destruct (search_object_ambiguous self d t n kwargs h objs Hscan Hlen)
    as (Hres & Hinit & Hheap).
  split; [exact Hres|split; [|by split]].
  by apply search_loop_returned in Hscan.
Qed.

(** C2 (as the code has it): [_search_object] takes one directory.
    Provided no load of a [.py] entry raises an exception other than a
    [ModuleNotFoundError] or a [SyntaxError], its loop runs the
    top-level code of every [.py] entry of that directory, and of these
    files only, whatever matched before, and returns all the candidates
    of the directory in the order of the iteration; two or more of them
    in that one directory are the ambiguity error. *)
Theorem single_directory_scan self d t n kwargs h :
  Forall (fun entry => endswith entry ".py" = true ->
            load_aborts fs (resolve_joinpath (dir_str d) entry) = None)
         (dir_entries d) ->
  out_res (scan d t n h) = Returned (candidates d t n) /\
  omap exec_path (out_trace (scan d t n h)) =
    resolve_joinpath (dir_str d) <$>
      filter (fun entry => endswith entry ".py" = true) (dir_entries d) /\
  (2 <= length (candidates d t n) ->
   out_res (search self d t n kwargs h) =
     Raised (ambiguity_error self n (candidates d t n))).
Proof.
  intros Hall.
  destruct (search_loop_completes fs resolve_joinpath (dir_str d) t n (dir_entries d) [] h Hall)
    as [Hres Hexec].
  simpl in Hres. split; [done|split; [done|]].
  intros Hlen. rewrite search_object_run. simpl. rewrite Hres.
  destruct (candidates d t n) as [|[c p] [|x objs]]; simpl in Hlen; [lia|lia|done].
Qed.


Lemma exec_body_raise pre e post ns ns' :
  exec_body pre ns = (ns', None) ->
  exec_body (pre ++ Raise e :: post) ns = (ns', Some e).
Proof.
  revert ns. induction pre as [|[x m|e'] pre IH]; intros ns; simpl.
  - by intros [= ->].
  - apply IH.
  - discriminate.
Qed.

(** C4: on a module whose load did not abort, [_get_valid_object]
    returns, and what it returns is the first of the module's classes,
    in the order of [inspect.getmembers], whose attribute name is the
    requested name, character for character, and whose [__bases__]
    hold the requested type; that is the class bound to the name when
    the type is among its direct bases, and [None] otherwise, also when
    the type is an ancestor further up. *)
Theorem matcher_returns_named_direct_subclass t p n h :
  load_aborts fs p = None ->
  exists r,
    out_res (_get_valid_object fs t p n h) = Returned r /\
    (forall c, r = Some c <->
       (load fs p).1 !! n = Some (MClass c) /\ class_in t (cls_bases c) = true) /\
    (forall c, r = Some c ->
       exists before after,
         getmembers_isclass (load fs p).1 = before ++ (n, c) :: after /\
         Forall (fun kv => String.eqb n kv.1 && class_in t (cls_bases kv.2) = false)
                before) /\
    (r = None <->
       forall c, (load fs p).1 !! n = Some (MClass c) -> class_in t (cls_bases c) = false) /\
    (forall c, (load fs p).1 !! n = Some (MClass c) ->
       class_in t (cls_bases c) = false -> has_ancestor t c = true -> r = None).
Proof.
  intros Habort.
  exists (head (valid_objects t n (getmembers_isclass (load fs p).1))).
  assert (Hnone : head (valid_objects t n (getmembers_isclass (load fs p).1)) = None <->
            forall c, (load fs p).1 !! n = Some (MClass c) ->
                      class_in t (cls_bases c) = false).
  { split.
    - intros Hnone c Hc. destruct (class_in t (cls_bases c)) eqn:Hb; [|done].
      assert (head (valid_objects t n (getmembers_isclass (load fs p).1)) = Some c)
        by by apply head_valid_objects.
      congruence.
    - intros Hall. destruct (head _) as [c|] eqn:Hhead; [|done].
      apply head_valid_objects in Hhead as [Hc Hb]. apply Hall in Hc. congruence. }
  split; [|split; [|split; [|split]]].
  - rewrite get_valid_object_run. simpl. unfold load_aborts in Habort.
    destruct (load fs p).2 as [e|]; [|done].
    by destruct (caught_on_import e).
  - intros c. apply head_valid_objects.
  - intros c Hhead. unfold valid_objects in Hhead.
    apply head_omap_first in Hhead as (before & [k c'] & after & Hsplit & Hx & Hbefore).
    simpl in Hx.
    destruct (String.eqb n k) eqn:Hk; [|discriminate].
    destruct (class_in t (cls_bases c')); [|discriminate].
    apply String.eqb_eq in Hk. subst k. simpl in Hx. injection Hx as ->.
    exists before, after. split; [done|].
    eapply Forall_impl; [exact Hbefore|]. intros [k' c''] Hf. simpl in *.
    by destruct (String.eqb n k' && class_in t (cls_bases c'')).
  - exact Hnone.
  - intros c Hc Hb _. apply Hnone. intros c' Hc'. congruence.
Qed.

(** C5: when the scan yields exactly one candidate and its constructor
    accepts the arguments, [_search_object] calls that class once, with
    the items of the supplied dictionary as they are, and returns the
    instance the call made together with the candidate's module path. *)
Theorem unique_candidate_instantiated self d t n kwargs h c p attrs :
  out_res (scan d t n h) = Returned [(c, p)] ->
  (cls_init c (supplied kwargs h)).1 = CtorOk attrs ->
  let o := search self d t n kwargs h in
  out_res o = Returned (Found {| inst_cls := c; inst_attrs := attrs |} p) /\
  filter is_init (out_trace o) = [EvInit c (supplied kwargs h)] /\
  (forall l, is_Some (h !! l) -> out_heap o !! l = h !! l).
Proof.
  intros Hscan Hctor o. subst o.
  rewrite search_object_run. cbv zeta. rewrite Hscan.
  cbn [out_res out_trace out_heap].
  rewrite call_class_res, call_class_trace, Hctor.
  split; [done|split].
  - by rewrite filter_app, filter_cons, search_loop_no_init.
  - intros l Hl. by apply call_class_frame.
Qed.

(** C6: when the scan yields no candidate, [_search_object] returns
    the pair [(None, None)]: it raises nothing and calls no class. *)
Theorem no_candidate_returns_none self d t n kwargs h :
  out_res (scan d t n h) = Returned [] ->
  let o := search self d t n kwargs h in
  out_res o = Returned NotFound /\
  (forall e, out_res o <> Raised e) /\
  filter is_init (out_trace o) = [] /\
  out_heap o = h.
Proof.
  intros Hscan o. subst o.
  assert (Hres : out_res (search self d t n kwargs h) = Returned NotFound).
  { rewrite search_object_run. simpl. by rewrite Hscan. }
  split; [done|split; [|split]].
  - intros e. by rewrite Hres.
  - apply search_object_no_init_unless_one. intros c p. by rewrite Hscan.
  - rewrite search_object_run. simpl. by rewrite Hscan.
Qed.

(** C7: the trace of [_search_object] has a class call exactly when the
    scan returned a list of one candidate, and then it is the one call
    of that candidate on the supplied arguments. *)
Theorem constructor_only_for_unique_candidate self d t n kwargs h :
  let o := search self d t n kwargs h in
  (forall c kw, EvInit c kw ∈ out_trace o <->
     exists p, out_res (scan d t n h) = Returned [(c, p)] /\ kw = supplied kwargs h) /\
  length (filter is_init (out_trace o)) <= 1.
Proof.
  intros o. subst o.
  pose proof (search_loop_no_init fs resolve_joinpath (dir_str d) t n (dir_entries d) [] h) as Hn.
  assert (Hscan_init : forall c kw, EvInit c kw ∉ out_trace (scan d t n h)).
  { intros c kw Hin.
    assert (Hf : EvInit c kw ∈ filter is_init (out_trace (scan d t n h)))
      by (apply list_elem_of_filter; by split).
    rewrite Hn in Hf. by apply elem_of_nil in Hf. }
  rewrite search_object_run. cbv zeta.
  destruct (out_res (scan d t n h)) as [[|[c0 p0] [|x objs]]|e] eqn:Hr;
    cbn [out_res out_trace out_heap]; rewrite ?filter_cons.
  - split; [|by rewrite Hn; simpl; lia].
    intros c kw. split.
    + intros [Hd|Hin]%elem_of_cons; [discriminate|]. by apply Hscan_init in Hin.
    + by intros (p & ? & _).
  - rewrite call_class_trace. split.
    + intros c kw. split.
      * intros [Hd|Hin]%elem_of_cons; [discriminate|].
        apply elem_of_app in Hin as [Hin|Hin]; [by apply Hscan_init in Hin|].
        apply list_elem_of_singleton in Hin. simplify_eq. by exists p0.
      * intros (p & [= -> ->] & ->). right. apply elem_of_app. right. left.
    + rewrite filter_app, filter_cons, Hn. simpl. lia.
  - split; [|by rewrite Hn; simpl; lia].
    intros c kw. split.
    + intros [Hd|Hin]%elem_of_cons; [discriminate|]. by apply Hscan_init in Hin.
    + by intros (p & ? & _).
  - split; [|by rewrite Hn; simpl; lia].
    intros c kw. split.
    + intros [Hd|Hin]%elem_of_cons; [discriminate|]. by apply Hscan_init in Hin.
    + by intros (p & ? & _).
Qed.

(** C8: when the one candidate's constructor raises, [_search_object]
    raises that very exception after the one call it made, and no
    second call follows; the ambiguity error comes from runs that call
    no class at all, so the two runs differ in what they did. *)
Theorem constructor_failure_propagates self d t n kwargs h c p e :
  out_res (scan d t n h) = Returned [(c, p)] ->
  (cls_init c (supplied kwargs h)).1 = CtorRaise e ->
  let o := search self d t n kwargs h in
  out_res o = Raised e /\
  filter is_init (out_trace o) = [EvInit c (supplied kwargs h)] /\
  (forall self' d' t' n' kwargs' h' objs,
     out_res (scan d' t' n' h') = Returned objs -> 2 <= length objs ->
     let o' := search self' d' t' n' kwargs' h' in
     out_res o' = Raised (ambiguity_error self' n' objs) /\
     filter is_init (out_trace o') = [] /\
     out_trace o' <> out_trace o).
Proof.
  intros Hscan Hctor o.
  assert (Hinit : filter is_init (out_trace o) = [EvInit c (supplied kwargs h)]).
  { subst o. rewrite search_object_run. cbv zeta. rewrite Hscan.
    cbn [out_res out_trace out_heap]. rewrite call_class_trace.
    by rewrite filter_app, filter_cons, search_loop_no_init. }
  split; [|split; [done|]].
  - subst o. rewrite search_object_run. cbv zeta. rewrite Hscan.
    cbn [out_res out_trace out_heap]. by rewrite call_class_res, Hctor.
  - intros self' d' t' n' kwargs' h' objs Hscan' Hlen o'.
    destruct (search_object_ambiguous self' d' t' n' kwargs' h' objs Hscan' Hlen)
      as (Hres & Hnone & _).
    split; [exact Hres|split; [exact Hnone|]].
    intros Heq. subst o'. rewrite Heq, Hinit in Hnone. discriminate.
Qed.

(** C9: a module whose body binds the requested name to a class with
    the requested type among its bases and afterwards raises a
    [ModuleNotFoundError] or a [SyntaxError] still gives that class:
    [_get_valid_object] logs the warning and returns it, and in a
    directory where no other entry gives a candidate or aborts,
    [_search_object] calls it and returns what the call gives, with the
    failed file as the module path. *)
Theorem partial_module_still_matches self d t n kwargs h c p e before_raise after_raise ns :
  fs !! p = Some (Parsed (before_raise ++ Raise e :: after_raise)) ->
  caught_on_import e = true ->
  exec_body before_raise (module_from_spec p) = (ns, None) ->
  ns !! n = Some (MClass c) ->
  class_in t (cls_bases c) = true ->
  _get_valid_object fs t p n h =
    Outcome (Returned (Some c)) h [EvExec p; import_warning p e] /\
  (forall entry before after,
     dir_entries d = before ++ entry :: after ->
     endswith entry ".py" = true ->
     resolve_joinpath (dir_str d) entry = p ->
     Forall (fun x => entry_candidate fs resolve_joinpath (dir_str d) t n x = None /\
                      (endswith x ".py" = true ->
                       load_aborts fs (resolve_joinpath (dir_str d) x) = None))
            (before ++ after) ->
     out_res (search self d t n kwargs h) =
       match (cls_init c (supplied kwargs h)).1 with
       | CtorOk attrs => Returned (Found {| inst_cls := c; inst_attrs := attrs |} p)
       | CtorRaise e' => Raised e'
       end).
Proof.
  intros Hfile Hcaught Hbody Hbound Hbase.
  assert (Hload : load fs p = (ns, Some e)).
  { unfold load, source_at. rewrite Hfile. simpl. by apply exec_body_raise. }
  assert (Hhead : head (valid_objects t n (getmembers_isclass ns)) = Some c)
    by by apply head_valid_objects.
  split.
  - rewrite get_valid_object_run, Hload. simpl. by rewrite Hcaught, Hhead.
  - intros entry before after Hentries Hpy Hp Hothers.
    apply Forall_app in Hothers as [Hbefore Hafter].
    assert (Hcand : candidates d t n = [(c, p)]).
    { rewrite Hentries, omap_app.
      assert (Hnil : forall l,
                Forall (fun x => entry_candidate fs resolve_joinpath (dir_str d) t n x = None /\
                  (endswith x ".py" = true ->
                   load_aborts fs (resolve_joinpath (dir_str d) x) = None)) l ->
                omap (entry_candidate fs resolve_joinpath (dir_str d) t n) l = []).
      { induction 1 as [|x l [Hx _] _ IH]; [done|]. by rewrite omap_cons_eq, Hx. }
      rewrite omap_cons_eq, (Hnil before Hbefore), (Hnil after Hafter).
      unfold entry_candidate. rewrite Hpy, Hp, Hload. simpl. by rewrite Hhead. }
    assert (Hall : Forall (fun x => endswith x ".py" = true ->
                       load_aborts fs (resolve_joinpath (dir_str d) x) = None)
                     (dir_entries d)).
    { rewrite Hentries. apply Forall_app. split; [|constructor].
      - eapply Forall_impl; [exact Hbefore|]. by intros x [_ Hx].
      - intros _. rewrite Hp. unfold load_aborts. rewrite Hload. simpl. by rewrite Hcaught.
      - eapply Forall_impl; [exact Hafter|]. by intros x [_ Hx]. }
    destruct (search_loop_completes fs resolve_joinpath (dir_str d) t n (dir_entries d)
                [] h Hall) as [Hscan _].
    simpl in Hscan. rewrite Hcand in Hscan.
    rewrite search_object_run. cbv zeta. rewrite Hscan.
    cbn [out_res out_trace out_heap]. rewrite call_class_res.
    by destruct (cls_init c (supplied kwargs h)).1.
Qed.

Lemma search_object_frame self d t n kwargs h (l : loc) :
  is_Some (h !! l) -> out_heap (search self d t n kwargs h) !! l = h !! l.
Proof.
  intros Hl. rewrite search_object_run. cbv zeta.
  destruct (out_res (scan d t n h)) as [[|[c p] [|x objs]]|e];
    cbn [out_res out_trace out_heap]; try done.
  by apply call_class_frame.
Qed.

(** A call sees the heap through the items of its [kwargs] only. *)
Lemma search_object_kwargs_only self d t n kwargs1 kwargs2 h1 h2 :
  supplied kwargs1 h1 = supplied kwargs2 h2 ->
  out_res (search self d t n kwargs1 h1) = out_res (search self d t n kwargs2 h2) /\
  out_trace (search self d t n kwargs1 h1) = out_trace (search self d t n kwargs2 h2).
Proof.
  intros Hkw. rewrite !search_object_run. cbv zeta.
  destruct (search_loop_heap_indep fs resolve_joinpath (dir_str d) t n (dir_entries d) [] h1 h2)
    as [-> ->].
  destruct (out_res (scan d t n h2)) as [[|[c p] [|x objs]]|e];
    cbn [out_res out_trace out_heap]; try done.
  by rewrite !call_class_res, !call_class_trace, Hkw.
Qed.

End Claims.

Lemma reachable_default_empty h :
  reachable h -> h !! _search_object_default_kwargs = Some ∅.
Proof.
  induction 1 as [|h l kw _ IH Hl|h fs rj self d t n kwargs _ IH].
  - apply lookup_singleton_eq.
  - by rewrite lookup_insert_ne.
  - rewrite search_object_frame; [done|]. by rewrite IH.
Qed.

(** C10: [_search_object] leaves every dictionary that was alive
    before the call as it was, the supplied one and the default of the
    signature among them; so on every reachable heap the default is
    still empty, and a call that leaves [kwargs] out returns or raises
    the same, with the same trace, as a call on a new empty dictionary. *)
Theorem kwargs_never_mutated fs resolve_joinpath self d t n kwargs h :
  (forall l, is_Some (h !! l) ->
     out_heap (_search_object fs resolve_joinpath self d t n kwargs h) !! l = h !! l) /\
  (reachable h ->
     h !! _search_object_default_kwargs = Some ∅ /\
     out_heap (_search_object fs resolve_joinpath self d t n kwargs h)
       !! _search_object_default_kwargs = Some ∅ /\
     forall l, h !! l = None ->
       out_res (_search_object fs resolve_joinpath self d t n None h) =
         out_res (_search_object fs resolve_joinpath self d t n (Some l) (<[l := ∅]> h)) /\
       out_trace (_search_object fs resolve_joinpath self d t n None h) =
         out_trace (_search_object fs resolve_joinpath self d t n (Some l) (<[l := ∅]> h))).
Proof.
  split; [intros l; apply search_object_frame|].
  intros Hreach. pose proof (reachable_default_empty h Hreach) as Hdef.
  split; [done|split].
  - rewrite search_object_frame; [done|]. by rewrite Hdef.
  - intros l Hl. apply search_object_kwargs_only. simpl.
    rewrite lookup_total_insert_eq.
    by rewrite lookup_total_alt, Hdef.
Qed.

(** ** The claims on the strategy directory *)

Module Witnesses.
Import Fixture.

Ltac conjuncts := repeat match goal with |- _ /\ _ => split end.
Ltac evaluate := vm_compute; reflexivity.

Lemma ambiguous_directory_raises_witness :
  out_res (scan dir_dup "MyStrat" heap_at_definition) =
    Returned [(MyStrat, "/strats/Foo.py"); (MyStrat2, "/strats/Dup.py")] /\
  out_res (search dir_dup "MyStrat" None heap_at_definition) =
    Raised {| exn_cls := OperationalException;
              exn_msg := "Cannot resolve object: found more than one objects of type `Strategy` with name `MyStrat`. Use unique names for custom strategies, hyperopts and other custom objects so that Freqtrade can be able to resolve them. Found in modules: ['/strats/Foo.py', '/strats/Dup.py']" |} /\
  filter is_init (out_trace (search dir_dup "MyStrat" None heap_at_definition)) = [].
Proof.
  assert (Hscan : out_res (scan dir_dup "MyStrat" heap_at_definition) =
            Returned [(MyStrat, "/strats/Foo.py"); (MyStrat2, "/strats/Dup.py")])
    by evaluate.
  split; [exact Hscan|].
  destruct (ambiguous_directory_raises files absolute StrategyResolver dir_dup IStrategy
              "MyStrat" None heap_at_definition _ Hscan) as (Hres & _ & Hinit & _).
  - simpl. lia.
  - split; [exact Hres|exact Hinit].
Defined.

(** Two directories with one [MyStrat] each: each call returns its own
    instance, and neither raises. *)
Lemma search_path_ambiguity_undetected :
  omap (entry_candidate files absolute "/strats" IStrategy "MyStrat") (dir_entries dir_user)
    ++ omap (entry_candidate files absolute "/builtin" IStrategy "MyStrat")
         (dir_entries dir_builtin) =
    [(MyStrat, "/strats/Foo.py"); (MyStrat2, "/builtin/Default.py")] /\
  out_res (search dir_user "MyStrat" None heap_at_definition) =
    Returned (Found {| inst_cls := MyStrat; inst_attrs := ∅ |} "/strats/Foo.py") /\
  out_res (search dir_builtin "MyStrat" None
             (out_heap (search dir_user "MyStrat" None heap_at_definition))) =
    Returned (Found {| inst_cls := MyStrat2; inst_attrs := ∅ |} "/builtin/Default.py").
Proof. conjuncts; evaluate. Qed.

Lemma single_directory_scan_witness :
  out_res (scan dir_dup "MyStrat" heap_at_definition) =
    Returned [(MyStrat, "/strats/Foo.py"); (MyStrat2, "/strats/Dup.py")] /\
  omap exec_path (out_trace (scan dir_dup "MyStrat" heap_at_definition)) =
    ["/strats/Foo.py"; "/strats/Bar.py"; "/strats/Dup.py"].
Proof.
  destruct (single_directory_scan files absolute StrategyResolver dir_dup IStrategy
              "MyStrat" None heap_at_definition) as (Hres & Hexec & _).
  - repeat constructor; intros _; evaluate.
  - split.
    + etrans; [exact Hres|]. evaluate.
    + etrans; [exact Hexec|]. evaluate.
Defined.



Lemma matcher_returns_named_direct_subclass_witness :
  load_aborts files "/strats/Deep.py" = None /\
  (load files "/strats/Deep.py").1 !! "MyStrat" = Some (MClass DeepStrat) /\
  has_ancestor IStrategy DeepStrat = true /\
  out_res (_get_valid_object files IStrategy "/strats/Deep.py" "MyStrat" heap_at_definition) =
    Returned None.
Proof.
  assert (Hload : load_aborts files "/strats/Deep.py" = None) by evaluate.
  assert (Hbound : (load files "/strats/Deep.py").1 !! "MyStrat" = Some (MClass DeepStrat))
    by evaluate.
  assert (Hanc : has_ancestor IStrategy DeepStrat = true) by evaluate.
  conjuncts; [exact Hload|exact Hbound|exact Hanc|].
  destruct (matcher_returns_named_direct_subclass files IStrategy "/strats/Deep.py" "MyStrat"
              heap_at_definition Hload) as (r & Hres & _ & _ & _ & Hdeep).
  rewrite Hres. f_equal. apply (Hdeep DeepStrat Hbound); [|exact Hanc].
  evaluate.
Defined.

Lemma unique_candidate_instantiated_witness :
  out_res (scan dir_picky "MyStrat" heap_with_params) =
    Returned [(PickyStrat, "/strats/Picky.py")] /\
  out_res (search dir_picky "MyStrat" (Some params) heap_with_params) =
    Returned (Found {| inst_cls := PickyStrat; inst_attrs := {["paramA" := VInt 5]} |}
                    "/strats/Picky.py") /\
  filter is_init (out_trace (search dir_picky "MyStrat" (Some params) heap_with_params)) =
    [EvInit PickyStrat {["paramA" := VInt 5]}].
Proof.
  assert (Hscan : out_res (scan dir_picky "MyStrat" heap_with_params) =
            Returned [(PickyStrat, "/strats/Picky.py")]) by evaluate.
  split; [exact Hscan|].
  destruct (unique_candidate_instantiated files absolute StrategyResolver dir_picky IStrategy
              "MyStrat" (Some params) heap_with_params PickyStrat "/strats/Picky.py"
              {["paramA" := VInt 5]} Hscan) as (Hres & Hinit & _).
  - evaluate.
  - split; [exact Hres|].
    etrans; [exact Hinit|]. evaluate.
Defined.

Lemma no_candidate_returns_none_witness :
  out_res (scan dir_none "MyStrat" heap_at_definition) = Returned [] /\
  out_res (search dir_none "MyStrat" None heap_at_definition) = Returned NotFound.
Proof.
  assert (Hscan : out_res (scan dir_none "MyStrat" heap_at_definition) = Returned [])
    by evaluate.
  split; [exact Hscan|].
  exact (proj1 (no_candidate_returns_none files absolute StrategyResolver dir_none IStrategy
                  "MyStrat" None heap_at_definition Hscan)).
Defined.

Lemma constructor_failure_propagates_witness :
  out_res (scan dir_picky "MyStrat" heap_at_definition) =
    Returned [(PickyStrat, "/strats/Picky.py")] /\
  out_res (search dir_picky "MyStrat" None heap_at_definition) =
    Raised {| exn_cls := TypeError;
              exn_msg := "__init__() missing 1 required keyword-only argument: 'paramA'" |}.
Proof.
  assert (Hscan : out_res (scan dir_picky "MyStrat" heap_at_definition) =
            Returned [(PickyStrat, "/strats/Picky.py")]) by evaluate.
  split; [exact Hscan|].
  refine (proj1 (constructor_failure_propagates files absolute StrategyResolver dir_picky
                   IStrategy "MyStrat" None heap_at_definition PickyStrat "/strats/Picky.py"
                   _ Hscan _)).
  evaluate.
Defined.

Lemma partial_module_still_matches_witness :
  _get_valid_object files IStrategy "/strats/Late.py" "MyStrat" heap_at_definition =
    Outcome (Returned (Some MyStrat)) heap_at_definition
      [EvExec "/strats/Late.py";
       EvLog WARNING "Could not import /strats/Late.py due to 'No module named 'talib''"] /\
  out_res (search dir_late "MyStrat" None heap_at_definition) =
    Returned (Found {| inst_cls := MyStrat; inst_attrs := ∅ |} "/strats/Late.py").
Proof.
  destruct (partial_module_still_matches files absolute StrategyResolver dir_late IStrategy
              "MyStrat" None heap_at_definition MyStrat "/strats/Late.py" no_talib
              [Bind "IStrategy" (MClass IStrategy); ClassDef MyStrat] []
              (exec_body [Bind "IStrategy" (MClass IStrategy); ClassDef MyStrat]
                 (module_from_spec "/strats/Late.py")).1)
    as (Hget & Hwin).
  - evaluate.
  - evaluate.
  - evaluate.
  - evaluate.
  - evaluate.
  - split; [exact Hget|].
    etrans.
    + apply (Hwin "/strats/Late.py" ["/strats/NoTalib.py"] ["/strats/Bar.py"]).
      * evaluate.
      * evaluate.
      * evaluate.
      * repeat constructor; try (intros _); evaluate.
    + evaluate.
Defined.

(** After a call that passed [{'paramA': 5}], a call that leaves
    [kwargs] out does not see [paramA]. *)
Lemma kwargs_never_mutated_witness :
  reachable (out_heap (search dir_picky "MyStrat" (Some params) heap_with_params)) /\
  out_heap (search dir_picky "MyStrat" (Some params) heap_with_params) !! params =
    Some {["paramA" := VInt 5]} /\
  out_heap (search dir_picky "MyStrat" (Some params) heap_with_params)
    !! _search_object_default_kwargs = Some ∅.
Proof.
  assert (Hreach : reachable heap_with_params).
  { apply reach_caller; [apply reach_definition|discriminate]. }
  split; [apply reach_search; exact Hreach|].
  destruct (kwargs_never_mutated files absolute StrategyResolver dir_picky IStrategy "MyStrat"
              (Some params) heap_with_params) as (Hframe & Hdefault).
  split.
  - etrans; [apply Hframe|]; [vm_compute; eauto|vm_compute; reflexivity].
  - exact (proj1 (proj2 (Hdefault Hreach))).
Defined.

(** *** Further runs *)

(** One [MyStrat] among an unrelated class, a file that is not Python
    and a file that does not compile. *)
Example single_match_resolves :
  out_res (search dir_one "MyStrat" None heap_at_definition) =
    Returned (Found {| inst_cls := MyStrat; inst_attrs := ∅ |} "/strats/Foo.py") /\
  out_trace (search dir_one "MyStrat" None heap_at_definition) =
    [EvLog DEBUG "Searching for IStrategy MyStrat in '/strats'";
     EvExec "/strats/Foo.py";
     EvLog DEBUG "Ignoring /strats/README.md";
     EvExec "/strats/Bar.py";
     EvExec "/strats/Broken.py";
     EvLog WARNING "Could not import /strats/Broken.py due to 'invalid syntax (Broken.py, line 1)'";
     EvInit MyStrat ∅].
Proof. conjuncts; evaluate. Qed.

Example name_is_case_sensitive :
  out_res (search dir_one "mystrat" None heap_at_definition) = Returned NotFound.
Proof. evaluate. Qed.

(** A [NameError] is not in the [except] clause: it ends the scan
    before [Foo.py] is looked at. *)
Example uncaught_load_failure_aborts :
  out_res (search dir_crash "MyStrat" None heap_at_definition) = Raised no_name /\
  out_trace (search dir_crash "MyStrat" None heap_at_definition) =
    [EvLog DEBUG "Searching for IStrategy MyStrat in '/strats'";
     EvExec "/strats/Crash.py"].
Proof. conjuncts; evaluate. Qed.

(** The constructor pops [config] from its keywords; the caller's
    dictionary keeps it. *)
Example callee_pop_stays_private :
  out_res (search dir_user "MyStrat" (Some params) heap_with_config) =
    Returned (Found {| inst_cls := MyStrat; inst_attrs := {["config" := VInt 1]} |}
                    "/strats/Foo.py") /\
  out_heap (search dir_user "MyStrat" (Some params) heap_with_config) !! params =
    Some {["config" := VInt 1]} /\
  out_heap (search dir_user "MyStrat" (Some params) heap_with_config)
    !! fresh (dom heap_with_config) = Some ∅.
Proof. conjuncts; evaluate. Qed.

End Witnesses.

(** * More about the scan *)

Section ScanFacts.

Variable fs : gmap string source.
Variable resolve_joinpath : string -> string -> string.

Abbreviation loop dir t n entries objs h :=
  (_search_object_loop fs resolve_joinpath dir t n entries objs h).
Abbreviation is_python entry := (endswith entry ".py" = true).
Abbreviation loads_quietly dir :=
  (fun entry => endswith entry ".py" = true ->
                load_aborts fs (resolve_joinpath dir entry) = None).

(** The loop over [l1 ++ l2] is the loop over [l1] and then, if that
    returned, the loop over [l2] from where it stopped. *)
Lemma search_loop_app dir t n l1 l2 objs h :
  loop dir t n (l1 ++ l2) objs h =
  let o1 := loop dir t n l1 objs h in
  match out_res o1 with
  | Returned objs1 =>
      let o2 := loop dir t n l2 objs1 (out_heap o1) in
      Outcome (out_res o2) (out_heap o2) (out_trace o1 ++ out_trace o2)
  | Raised e => Outcome (Raised e) (out_heap o1) (out_trace o1)
  end.
Proof.
  revert objs h. induction l1 as [|entry l1 IH]; intros objs h.
  - simpl. by destruct (loop dir t n l2 objs h).
  - rewrite <- app_comm_cons. destruct (endswith entry ".py") eqn:Hpy.
    + rewrite !search_loop_py by done. cbv zeta.
      destruct (out_res (_get_valid_object fs t (resolve_joinpath dir entry) n h))
        as [obj|e]; cbn [out_res out_heap out_trace]; [|done].
      rewrite IH. cbv zeta.
      destruct (out_res (loop dir t n l1 _ _)); cbn [out_res out_heap out_trace];
        by rewrite ?app_assoc.
    + rewrite !search_loop_skip by done. cbv zeta.
      cbn [out_res out_heap out_trace]. rewrite IH. cbv zeta.
      destruct (out_res (loop dir t n l1 _ _)); by cbn [out_res out_heap out_trace].
Qed.

(** A [.py] entry whose load aborts ends the loop there. *)
Lemma search_loop_abort dir t n bad rest objs h e :
  endswith bad ".py" = true ->
  load_aborts fs (resolve_joinpath dir bad) = Some e ->
  loop dir t n (bad :: rest) objs h =
  Outcome (Raised e) h [EvExec (resolve_joinpath dir bad)].
Proof.
  intros Hpy Habort. rewrite search_loop_py by done. cbv zeta.
  rewrite get_valid_object_run. cbv zeta. unfold load_aborts in Habort.
  destruct (load fs (resolve_joinpath dir bad)).2 as [e'|]; [|discriminate].
  destruct (caught_on_import e'); [discriminate|]. by injection Habort as ->.
Qed.

Lemma is_ignoring_log_ignoring entry :
  is_ignoring_log (EvLog DEBUG ("Ignoring " +:+ entry)) = true.
Proof. reflexivity. Qed.

Lemma search_loop_ignoring_filter dir t n entries objs h :
  out_res (loop dir t n entries objs h) =
    out_res (loop dir t n (filter (fun x => is_python x) entries) objs h) /\
  filter (fun ev => is_ignoring_log ev = false) (out_trace (loop dir t n entries objs h)) =
    out_trace (loop dir t n (filter (fun x => is_python x) entries) objs h).
Proof.
  revert objs h. induction entries as [|entry rest IH]; intros objs h; [done|].
  rewrite filter_cons. destruct (endswith entry ".py") eqn:Hpy.
  - rewrite decide_True by done. rewrite !search_loop_py by done. cbv zeta.
    rewrite get_valid_object_heap, get_valid_object_run. cbv zeta.
    assert (Hexec : forall tail, filter (fun ev => is_ignoring_log ev = false)
                      (EvExec (resolve_joinpath dir entry) :: tail) =
                    EvExec (resolve_joinpath dir entry)
                      :: filter (fun ev => is_ignoring_log ev = false) tail)
      by (intros tail; by rewrite filter_cons).
    assert (Hwarn : forall e tail, filter (fun ev => is_ignoring_log ev = false)
                      (import_warning (resolve_joinpath dir entry) e :: tail) =
                    import_warning (resolve_joinpath dir entry) e
                      :: filter (fun ev => is_ignoring_log ev = false) tail)
      by (intros e tail; by rewrite filter_cons).
    destruct (load fs (resolve_joinpath dir entry)).2 as [e|].
    + destruct (caught_on_import e); cbn [out_res out_heap out_trace]; [|done].
      match goal with |- context [loop dir t n rest ?acc h] =>
        destruct (IH acc h) as [Hr Ht] end.
      split; [exact Hr|].
      cbn [app]. by rewrite Hexec, Hwarn, Ht.
    + cbn [out_res out_heap out_trace].
      match goal with |- context [loop dir t n rest ?acc h] =>
        destruct (IH acc h) as [Hr Ht] end.
      split; [exact Hr|].
      cbn [app]. by rewrite Hexec, Ht.
  - rewrite decide_False by done.
    rewrite search_loop_skip by done. cbv zeta. cbn [out_res out_heap out_trace].
    destruct (IH objs h) as [Hr Ht]. split; [exact Hr|].
    rewrite filter_cons, is_ignoring_log_ignoring, decide_False by done. exact Ht.
Qed.

(** X1: entries that do not end in [.py] take no part in a search.
    The call on the whole listing and the call on its [.py] entries
    alone return or raise the same and leave the same heap, and their
    traces differ by the [Ignoring] debug records only. *)
Theorem non_python_entries_ignored self d t n kwargs h :
  let o := _search_object fs resolve_joinpath self d t n kwargs h in
  let o' := _search_object fs resolve_joinpath self (python_entries d) t n kwargs h in
  out_res o = out_res o' /\
  out_heap o = out_heap o' /\
  filter (fun ev => is_ignoring_log ev = false) (out_trace o) = out_trace o'.
Proof.
  intros o o'. subst o o'. rewrite !search_object_run. cbv zeta.
  destruct (search_loop_ignoring_filter (dir_str d) t n (dir_entries d) [] h) as [Hr Ht].
  change (dir_entries (python_entries d))
    with (filter (fun x => is_python x) (dir_entries d)).
  change (dir_str (python_entries d)) with (dir_str d).
  rewrite <- Hr, <- Ht.
  assert (Hdbg : forall tail, filter (fun ev => is_ignoring_log ev = false)
                   (search_debug d t n :: tail) =
                 search_debug (python_entries d) t n
                   :: filter (fun ev => is_ignoring_log ev = false) tail)
    by (intros tail; by rewrite filter_cons).
  destruct (out_res (loop (dir_str d) t n (dir_entries d) [] h))
    as [[|[c p] [|x objs]]|e]; cbn [out_res out_heap out_trace];
    rewrite ?Hdbg; try done.
  rewrite call_class_trace, filter_app. by rewrite (filter_cons _ (EvInit _ _)).
Qed.

(** X2: a [.py] entry whose load raises something other than a
    [ModuleNotFoundError] or a [SyntaxError] ends the search: the
    exception reaches the caller as it is, the entries after it are not
    loaded, no class is called and the heap is as before. *)
Theorem uncaught_load_failure_propagates self d t n kwargs h before bad after e :
  dir_entries d = before ++ bad :: after ->
  Forall (fun entry => endswith entry ".py" = true ->
            load_aborts fs (resolve_joinpath (dir_str d) entry) = None) before ->
  endswith bad ".py" = true ->
  load_aborts fs (resolve_joinpath (dir_str d) bad) = Some e ->
  let o := _search_object fs resolve_joinpath self d t n kwargs h in
  out_res o = Raised e /\
  omap exec_path (out_trace o) =
    resolve_joinpath (dir_str d) <$> (filter (fun entry => endswith entry ".py" = true) before ++ [bad]) /\
  filter is_init (out_trace o) = [] /\
  out_heap o = h.
Proof.
  intros Hentries Hbefore Hpy Habort o. subst o.
  assert (Hloop : loop (dir_str d) t n (dir_entries d) [] h =
            Outcome (Raised e) h
              (out_trace (loop (dir_str d) t n before [] h)
               ++ [EvExec (resolve_joinpath (dir_str d) bad)])).
  { rewrite Hentries, search_loop_app. cbv zeta.
    destruct (search_loop_completes fs resolve_joinpath (dir_str d) t n before [] h Hbefore)
      as [Hres _].
    rewrite Hres, search_loop_heap.
    by rewrite (search_loop_abort _ _ _ _ _ _ _ e Hpy Habort). }
  rewrite search_object_run. cbv zeta. rewrite Hloop.
  cbn [out_res out_heap out_trace].
  split; [done|split; [|split; [|done]]].
  - rewrite omap_cons_eq. cbn [exec_path search_debug].
    rewrite omap_app, fmap_app.
    destruct (search_loop_completes fs resolve_joinpath (dir_str d) t n before [] h Hbefore)
      as [_ Hexec].
    by rewrite Hexec.
  - by rewrite filter_cons, filter_app, search_loop_no_init.
Qed.

(** X3: what [_search_object] returns comes from the directory.  The
    module path of a returned pair is the resolved path of a [.py]
    entry of the listing; the instance is of the class that this file
    binds to the requested name, which has the requested type among its
    direct bases, and its attributes are what calling that class on the
    supplied arguments gave. *)
Theorem found_instance_provenance self d t n kwargs h inst p :
  out_res (_search_object fs resolve_joinpath self d t n kwargs h) =
    Returned (Found inst p) ->
  exists entry,
    entry ∈ dir_entries d /\
    endswith entry ".py" = true /\
    p = resolve_joinpath (dir_str d) entry /\
    (load fs p).1 !! n = Some (MClass (inst_cls inst)) /\
    class_in t (cls_bases (inst_cls inst)) = true /\
    (cls_init (inst_cls inst) (h !!! default _search_object_default_kwargs kwargs)).1 =
      CtorOk (inst_attrs inst).
Proof.
  rewrite search_object_run. cbv zeta.
  destruct (out_res (loop (dir_str d) t n (dir_entries d) [] h))
    as [[|[c p'] [|x objs]]|e] eqn:Hscan; cbn [out_res]; try discriminate.
  rewrite call_class_res.
  destruct (cls_init c _).1 as [attrs|e] eqn:Hctor; [|discriminate].
  intros [= <- <-]. cbn [inst_cls inst_attrs].
  apply search_loop_returned in Hscan. simpl in Hscan.
  assert (Hin : (c, p') ∈ omap (entry_candidate fs resolve_joinpath (dir_str d) t n)
                         (dir_entries d)) by (rewrite <- Hscan; left).
  apply list_elem_of_omap in Hin as (entry & Hentry & Hcand).
  unfold entry_candidate in Hcand.
  destruct (endswith entry ".py") eqn:Hpy; [|discriminate].
  destruct (head _) as [c'|] eqn:Hhead; [|discriminate].
  simpl in Hcand. injection Hcand as -> <-.
  apply head_valid_objects in Hhead as [Hbound Hbase].
  exists entry. by repeat split.
Qed.

(** X5: a file gives at most one candidate, and candidates keep the
    order of the listing: the module paths the loop returns, which are
    the ones an ambiguity error names, are a subsequence of the resolved
    paths of the [.py] entries. *)
Theorem candidates_follow_listing d t n h objs :
  out_res (_search_object_loop fs resolve_joinpath (dir_str d) t n (dir_entries d) [] h) =
    Returned objs ->
  (snd <$> objs) `sublist_of`
    (resolve_joinpath (dir_str d) <$>
       filter (fun entry => endswith entry ".py" = true) (dir_entries d)) /\
  length objs <= length (filter (fun entry => endswith entry ".py" = true) (dir_entries d)).
Proof.
  intros Hscan. apply search_loop_returned in Hscan. simpl in Hscan. subst objs.
  assert (Hsub : (snd <$> omap (entry_candidate fs resolve_joinpath (dir_str d) t n)
                            (dir_entries d)) `sublist_of`
                 (resolve_joinpath (dir_str d) <$>
                    filter (fun x => is_python x) (dir_entries d))).
  { induction (dir_entries d) as [|entry rest IH]; [done|].
    rewrite omap_cons_eq, filter_cons. unfold entry_candidate at 1.
    destruct (endswith entry ".py") eqn:Hpy.
    - rewrite decide_True by done. rewrite fmap_cons.
      destruct (head _) as [c|]; simpl.
      + by apply sublist_skip.
      + by apply sublist_cons.
    - by rewrite decide_False by done. }
  split; [exact Hsub|].
  apply sublist_length in Hsub. by rewrite !length_fmap in Hsub.
Qed.

(** X6: a directory with no entry ending in [.py], the empty directory
    among them, is searched without loading anything: the call returns
    the pair [(None, None)], and logs one debug record for the search
    and one for each entry it ignored. *)
Theorem no_python_files_not_found self d t n kwargs h :
  Forall (fun entry => endswith entry ".py" = false) (dir_entries d) ->
  _search_object fs resolve_joinpath self d t n kwargs h =
    Outcome (Returned NotFound) h
      (search_debug d t n :: (ignoring_log <$> dir_entries d)).
Proof.
  intros Hnone.
  assert (Hloop : forall objs,
            loop (dir_str d) t n (dir_entries d) objs h =
              Outcome (Returned objs) h (ignoring_log <$> dir_entries d)).
  { induction Hnone as [|entry rest Hpy _ IH]; intros objs; [done|].
    rewrite search_loop_skip by done. cbv zeta. by rewrite IH. }
  rewrite search_object_run. cbv zeta. by rewrite Hloop.
Qed.

(** X7: when no load aborts, the warnings of a search are one for each
    [.py] entry whose load raised a [ModuleNotFoundError] or a
    [SyntaxError], in the order of the listing, each with the module
    path and the text of the exception; no other entry is warned about. *)
Theorem caught_failures_each_warned self d t n kwargs h :
  Forall (fun entry => endswith entry ".py" = true ->
            load_aborts fs (resolve_joinpath (dir_str d) entry) = None)
         (dir_entries d) ->
  filter (fun ev => is_warning ev = true)
    (out_trace (_search_object fs resolve_joinpath self d t n kwargs h)) =
  omap (entry_warning fs resolve_joinpath (dir_str d)) (dir_entries d).
Proof.
  intros Hall.
  assert (Hloop : forall objs,
            filter (fun ev => is_warning ev = true)
              (out_trace (loop (dir_str d) t n (dir_entries d) objs h)) =
            omap (entry_warning fs resolve_joinpath (dir_str d)) (dir_entries d)).
  { induction Hall as [|entry rest Hentry _ IH]; intros objs; [done|].
    rewrite omap_cons_eq. unfold entry_warning at 1.
    destruct (endswith entry ".py") eqn:Hpy.
    - specialize (Hentry eq_refl). unfold load_aborts in Hentry.
      rewrite search_loop_py by done. cbv zeta.
      rewrite get_valid_object_heap, get_valid_object_run. cbv zeta.
      destruct (load fs (resolve_joinpath (dir_str d) entry)).2 as [e|].
      + destruct (caught_on_import e); [|discriminate].
        cbn [out_res out_heap out_trace app].
        rewrite filter_cons, decide_False by done.
        rewrite filter_cons, decide_True by done. by rewrite IH.
      + cbn [out_res out_heap out_trace app].
        rewrite filter_cons, decide_False by done. by rewrite IH.
    - rewrite search_loop_skip by done. cbv zeta. cbn [out_res out_heap out_trace].
      rewrite filter_cons, decide_False by done. by rewrite IH. }
  rewrite search_object_run. cbv zeta.
  destruct (out_res (loop (dir_str d) t n (dir_entries d) [] h))
    as [[|[c p] [|x objs]]|e]; cbn [out_res out_heap out_trace];
    rewrite <- ?app_comm_cons;
    rewrite filter_cons, decide_False by done; rewrite ?Hloop; try done.
  rewrite filter_app, Hloop, call_class_trace.
  rewrite filter_cons, decide_False by done. by rewrite app_nil_r.
Qed.

End ScanFacts.

(** * Strings *)

Lemma append_cons c a b : String c a +:+ b = String c (a +:+ b).
Proof. reflexivity. Qed.

Lemma append_nil_l b : EmptyString +:+ b = b.
Proof. reflexivity. Qed.

Lemma length_append a b : String.length (a +:+ b) = String.length a + String.length b.
Proof. induction a as [|c a IH]; [done|]. rewrite append_cons. simpl. by rewrite IH. Qed.

Lemma startswith_nil s : startswith s EmptyString = true.
Proof. by destruct s. Qed.

Lemma startswith_cons b s a w :
  startswith (String b s) (String a w) = Ascii.eqb a b && startswith s w.
Proof. reflexivity. Qed.

Lemma startswith_length s w :
  startswith s w = true -> String.length w <= String.length s.
Proof.
  revert s. induction w as [|a w IH]; intros s; [simpl; lia|].
  destruct s as [|b s]; [discriminate|].
  rewrite startswith_cons. intros [_ H]%andb_true_iff. apply IH in H. simpl. lia.
Qed.

Lemma startswith_shorter s w x :
  startswith s (w +:+ x) = true -> startswith s w = true.
Proof.
  revert s. induction w as [|a w IH]; intros s; [by rewrite startswith_nil|].
  rewrite append_cons. destruct s as [|b s]; [discriminate|].
  rewrite !startswith_cons. intros [Hab H]%andb_true_iff.
  by rewrite Hab, (IH s H).
Qed.

Lemma startswith_app_r s w b :
  startswith s w = true -> startswith (s +:+ b) w = true.
Proof.
  revert s. induction w as [|a w IH]; intros s; [by rewrite startswith_nil|].
  destruct s as [|c s]; [discriminate|].
  rewrite append_cons, !startswith_cons. intros [Hac H]%andb_true_iff.
  by rewrite Hac, (IH s H).
Qed.

Lemma append_assoc_right a b c : (a +:+ b) +:+ c = a +:+ (b +:+ c).
Proof. induction a as [|x a IH]; [done|]. by rewrite !append_cons, IH. Qed.

Lemma startswith_prefix w rest : startswith (w +:+ rest) w = true.
Proof.
  induction w as [|a w IH]; [by rewrite startswith_nil|].
  by rewrite append_cons, startswith_cons, Ascii.eqb_refl, IH.
Qed.

Lemma str_in_unfold needle s :
  str_in needle s =
  startswith s needle ||
  match s with EmptyString => false | String _ rest => str_in needle rest end.
Proof. by destruct s. Qed.

Lemma str_in_app_l needle a s :
  str_in needle s = true -> str_in needle (a +:+ s) = true.
Proof.
  intros H. induction a as [|c a IH]; [done|].
  rewrite append_cons, str_in_unfold, IH. apply orb_true_r.
Qed.

Lemma str_in_app_r needle s b :
  str_in needle s = true -> str_in needle (s +:+ b) = true.
Proof.
  induction s as [|c s IH].
  - rewrite str_in_unfold, orb_false_r. intros H.
    rewrite append_nil_l, str_in_unfold.
    destruct needle; [by rewrite startswith_nil|discriminate].
  - rewrite str_in_unfold. intros [H|H]%orb_true_iff.
    + rewrite str_in_unfold. by rewrite (startswith_app_r _ _ b H).
    + rewrite append_cons, str_in_unfold, (IH H). apply orb_true_r.
Qed.

Lemma str_contains_app c a b :
  str_contains c (a +:+ b) = str_contains c a || str_contains c b.
Proof.
  induction a as [|d a IH]; [done|].
  rewrite append_cons. simpl. by rewrite IH, orb_assoc.
Qed.

(** What a replacement leaves out stays out, when the new text has
    none of it. *)
Lemma replace_from_keeps_out x old new skip s :
  str_contains x new = false ->
  str_contains x s = false ->
  str_contains x (replace_from old new skip s) = false.
Proof.
  intros Hnew. revert skip. induction s as [|c s IH]; intros skip Hs; [done|].
  simpl in Hs. apply orb_false_iff in Hs as [Hc Hs].
  destruct skip as [|k]; [|by apply IH].
  cbn [replace_from]. destruct (startswith (String c s) old).
  - by rewrite str_contains_app, Hnew, IH.
  - simpl. by rewrite Hc, IH.
Qed.

(** Replacing a character removes it, when the new text has none. *)
Lemma replace_char_removes a new s :
  str_contains a new = false ->
  str_contains a (str_replace (String a EmptyString) new s) = false.
Proof.
  intros Hnew. unfold str_replace. induction s as [|c s IH]; [done|].
  cbn [replace_from]. rewrite startswith_cons, startswith_nil, andb_true_r.
  destruct (Ascii.eqb a c) eqn:Hac.
  - cbn [String.length Nat.sub]. by rewrite str_contains_app, Hnew, IH.
  - simpl. by rewrite Hac, IH.
Qed.

Lemma first_line_no_newline s : str_contains newline (first_line s) = false.
Proof.
  induction s as [|c s IH]; [done|]. cbn [first_line].
  destruct (Ascii.eqb c newline) eqn:Hc; [done|].
  cbn [str_contains]. by rewrite Ascii.eqb_sym, Hc, IH.
Qed.

Lemma sub_optional_from_length word last repl skip s :
  String.length repl <= String.length word ->
  String.length (sub_optional_from word last repl skip s) <= String.length s - skip.
Proof.
  intros Hrepl. revert skip. induction s as [|c s IH]; intros skip; [simpl; lia|].
  destruct skip as [|k]; [|by apply IH].
  cbn [sub_optional_from].
  destruct (startswith (String c s) (word +:+ String last EmptyString)) eqn:Hfull.
  - apply startswith_length in Hfull. rewrite length_append in Hfull |- *.
    specialize (IH (String.length word)). simpl in *. lia.
  - destruct (startswith (String c s) word) eqn:Hword.
    + apply startswith_length in Hword. rewrite length_append.
      specialize (IH (String.length word - 1)). simpl in *. lia.
    + specialize (IH 0). simpl in *. lia.
Qed.

Lemma sub_optional_from_absent word last repl s :
  str_in word s = false ->
  sub_optional_from word last repl 0 s = s.
Proof.
  induction s as [|c s IH]; [done|].
  rewrite str_in_unfold. intros [Hstart Hrest]%orb_false_iff.
  cbn [sub_optional_from]. rewrite Hstart.
  destruct (startswith (String c s) (word +:+ String last EmptyString)) eqn:Hfull.
  - apply startswith_shorter in Hfull. congruence.
  - by rewrite IH.
Qed.

Lemma re_sub_leading_an_length repl s :
  String.length repl <= 1 ->
  String.length (re_sub_leading_an repl s) <= String.length s.
Proof.
  intros Hrepl. unfold re_sub_leading_an.
  destruct s as [|c s]; [done|].
  destruct (Ascii.eqb_spec c "a") as [->|Hc].
  - destruct s as [|c' s]; [rewrite length_append; simpl; lia|].
    destruct (Ascii.eqb_spec c' "n") as [->|Hc'].
    + rewrite length_append. simpl. lia.
    + assert (String.length (repl +:+ String c' s) <= String.length (String "a" (String c' s)))
        by (rewrite length_append; simpl; lia).
      destruct c' as [[] [] [] [] [] [] [] []]; try exact H. by destruct Hc'.
  - by destruct c as [[] [] [] [] [] [] [] []].
Qed.

(** * The rpc module *)

Module RpcFacts.
Import Rpc.

(** X8: [shorten_date] trims: whatever the text, the result is not
    longer than what was passed in. *)
Theorem shorten_date_never_longer (_date : string) :
  String.length (shorten_date _date) <= String.length _date.
Proof.
  unfold shorten_date, re_sub_optional. cbv zeta.
  etrans; [apply re_sub_leading_an_length; simpl; lia|].
  etrans; [apply sub_optional_from_length; simpl; lia|]. rewrite Nat.sub_0_r.
  etrans; [apply sub_optional_from_length; simpl; lia|]. rewrite Nat.sub_0_r.
  etrans; [apply sub_optional_from_length; simpl; lia|]. rewrite Nat.sub_0_r.
  etrans; [apply sub_optional_from_length; simpl; lia|]. lia.
Qed.

(** X9: [shorten_date] leaves a text as it is when none of the words
    [second], [minute], [hour] and [day] occurs in it and it does not
    start with the letter [a]. *)
Theorem shorten_date_keeps_other_text (_date : string) :
  str_in "second" _date = false ->
  str_in "minute" _date = false ->
  str_in "hour" _date = false ->
  str_in "day" _date = false ->
  startswith _date "a" = false ->
  shorten_date _date = _date.
Proof.
  intros Hsec Hmin Hhour Hday Ha. unfold shorten_date, re_sub_optional. cbv zeta.
  rewrite (sub_optional_from_absent "second" _ _ _ Hsec).
  rewrite (sub_optional_from_absent "minute" _ _ _ Hmin).
  rewrite (sub_optional_from_absent "hour" _ _ _ Hhour).
  rewrite (sub_optional_from_absent "day" _ _ _ Hday).
  destruct _date as [|c s]; [done|].
  rewrite startswith_cons, startswith_nil, andb_true_r in Ha.
  apply Ascii.eqb_neq in Ha.
  destruct c as [[] [] [] [] [] [] [] []]; try done.
Qed.

Section Registry.

Variable telegram : telegram_module.

Lemma run_call_registered c reg :
  rpc_registered (run_call telegram c reg) =
  reg ++ (if enables_telegram c then ["telegram"] else []).
Proof.
  destruct c as [cfg| |msg]; simpl.
  - unfold init, telegram_enabled. destruct (cfg !! "telegram") as [section|]; simpl.
    + destruct (truthy _); simpl; by rewrite ?app_nil_r.
    + by rewrite app_nil_r.
  - unfold cleanup. destruct (bool_decide _); simpl; by rewrite app_nil_r.
  - unfold send_msg. destruct (bool_decide _); simpl; by rewrite app_nil_r.
Qed.

Lemma registered_after_count calls reg :
  registered_after telegram calls reg =
  reg ++ replicate (length (filter (fun c => enables_telegram c = true) calls)) "telegram".
Proof.
  unfold registered_after. revert reg.
  induction calls as [|c calls IH]; intros reg; simpl; [by rewrite app_nil_r|].
  rewrite IH, run_call_registered, filter_cons.
  destruct (enables_telegram c); simpl.
  - by rewrite <- app_assoc.
  - by rewrite app_nil_r.
Qed.

(** X10: [REGISTERED_MODULES] holds one ['telegram'] for each call of
    [init] that found telegram enabled, also when [telegram.init]
    raised, and nothing else: [init] on other configurations,
    [cleanup] and [send_msg] do not change the list. *)
Theorem registry_counts_enabled_inits (calls : list rpc_call) :
  registered_after telegram calls [] =
  replicate (length (filter (fun c => enables_telegram c = true) calls)) "telegram".
Proof. by rewrite registered_after_count. Qed.

Lemma telegram_registered_iff calls :
  bool_decide ("telegram" ∈ registered_after telegram calls []) =
  existsb enables_telegram calls.
Proof.
  rewrite registered_after_count, app_nil_l.
  induction calls as [|c calls IH]; [done|].
  rewrite filter_cons. cbn [existsb].
  destruct (enables_telegram c); cbn [orb].
  - rewrite decide_True by done. cbn [length replicate].
    apply bool_decide_eq_true_2. left.
  - rewrite decide_False by done. exact IH.
Qed.

(** X11: a message sent after any calls is logged, and is passed to
    telegram, once, exactly when one of the earlier calls was an
    [init] that found telegram enabled: however many such calls there
    were, and whether [cleanup] was called since or not. *)
Theorem send_msg_reaches_telegram_once (calls : list rpc_call) (msg : string) :
  let o := send_msg telegram msg (registered_after telegram calls []) in
  rpc_trace o =
    LogInfo msg :: (if existsb enables_telegram calls then [TelegramSendMsg msg] else []) /\
  rpc_registered o = registered_after telegram calls [].
Proof.
  intros o. subst o. unfold send_msg.
  rewrite telegram_registered_iff. by destruct (existsb enables_telegram calls).
Qed.

End Registry.

End RpcFacts.

(** * The error watcher *)

Module ErrorWatcherFacts.
Import ErrorWatcher.

Lemma str_lower_app a b : str_lower (a +:+ b) = str_lower a +:+ str_lower b.
Proof. induction a as [|c a IH]; [done|]. rewrite append_cons. simpl. by rewrite IH. Qed.

Lemma stop_bot_argument_clean out c :
  c ∈ [" "%char; "_"%char; "("%char; ")"%char; newline] ->
  str_contains c (stop_bot_argument out) = false.
Proof.
  unfold stop_bot_argument.
  pose proof (first_line_no_newline out) as H0.
  set (s0 := first_line out) in *.
  assert (H1u : str_contains "_" (str_replace "_" EmptyString s0) = false)
    by by apply replace_char_removes.
  assert (H1n : str_contains newline (str_replace "_" EmptyString s0) = false)
    by by apply replace_from_keeps_out.
  set (s1 := str_replace "_" EmptyString s0) in *.
  assert (H2u : str_contains "_" (str_replace ": " ":" s1) = false)
    by by apply replace_from_keeps_out.
  assert (H2n : str_contains newline (str_replace ": " ":" s1) = false)
    by by apply replace_from_keeps_out.
  set (s2 := str_replace ": " ":" s1) in *.
  assert (H3s : str_contains " " (str_replace " " "#" s2) = false)
    by by apply replace_char_removes.
  assert (H3u : str_contains "_" (str_replace " " "#" s2) = false)
    by by apply replace_from_keeps_out.
  assert (H3n : str_contains newline (str_replace " " "#" s2) = false)
    by by apply replace_from_keeps_out.
  set (s3 := str_replace " " "#" s2) in *.
  assert (H4o : str_contains "(" (str_replace "(" EmptyString s3) = false)
    by by apply replace_char_removes.
  assert (H4s : str_contains " " (str_replace "(" EmptyString s3) = false)
    by by apply replace_from_keeps_out.
  assert (H4u : str_contains "_" (str_replace "(" EmptyString s3) = false)
    by by apply replace_from_keeps_out.
  assert (H4n : str_contains newline (str_replace "(" EmptyString s3) = false)
    by by apply replace_from_keeps_out.
  set (s4 := str_replace "(" EmptyString s3) in *.
  intros Hc. repeat (apply elem_of_cons in Hc as [->|Hc]);
    [by apply replace_from_keeps_out|by apply replace_from_keeps_out
    |by apply replace_from_keeps_out|by apply replace_char_removes
    |by apply replace_from_keeps_out|by apply elem_of_nil in Hc].
Qed.

(** X13: [on_created] always runs its one [grep] command, and runs the
    stop command after it exactly when [__freqtrade_error_case] is
    false for what [grep] wrote.  The stop command is [python3], the
    script path, the mode and a last argument made from the first line
    of that output, which holds no blank, underscore, parenthesis or
    newline. *)
Theorem on_created_stop_command EXECUTION_PATH MODE popen src_path :
  exists error_check_command,
    on_created EXECUTION_PATH MODE popen src_path =
      (if __freqtrade_error_case (popen error_check_command)
       then [error_check_command]
       else [error_check_command;
             "python3 " +:+ EXECUTION_PATH +:+ "/stop_bot.py " +:+ MODE +:+ " "
             +:+ stop_bot_argument (popen error_check_command)]) /\
    startswith error_check_command ("grep error " +:+ src_path +:+ " && grep exception ")
      = true /\
    forall c, c ∈ [" "%char; "_"%char; "("%char; ")"%char; newline] ->
      str_contains c (stop_bot_argument (popen error_check_command)) = false.
Proof.
  set (tail := src_path +:+ " && grep Error " +:+ src_path +:+ " && grep Exception "
                 +:+ src_path +:+ src_path +:+ " && grep ERROR " +:+ src_path
                 +:+ " && grep EXCEPTION " +:+ src_path).
  exists ("grep error " +:+ src_path +:+ " && grep exception " +:+ tail).
  split; [|split].
  - unfold on_created, stop_bot_command. cbv zeta. fold tail.
    by destruct (__freqtrade_error_case _).
  - replace ("grep error " +:+ src_path +:+ " && grep exception " +:+ tail)
      with (("grep error " +:+ src_path +:+ " && grep exception ") +:+ tail)
      by (by rewrite !append_assoc_right).
    apply startswith_prefix.
  - intros c. apply stop_bot_argument_clean.
Qed.

(** X14: more output does not undo an error case: when
    [__freqtrade_error_case] holds of a text, it holds of every text
    that has it inside. *)
Theorem error_case_kept_by_more_output (before s after : string) :
  __freqtrade_error_case s = true ->
  __freqtrade_error_case (before +:+ s +:+ after) = true.
Proof.
  unfold __freqtrade_error_case. cbv zeta.
  rewrite !str_lower_app.
  assert (Hin : forall w, str_in w (str_lower s) = true ->
            str_in w (str_lower before +:+ str_lower s +:+ str_lower after) = true).
  { intros w H. by apply str_in_app_l, str_in_app_r. }
  intros [Hf [Hw|He]%orb_true_iff]%andb_true_iff.
  - by rewrite (Hin _ Hf), (Hin _ Hw).
  - rewrite (Hin _ Hf), (Hin _ He). by rewrite orb_true_r.
Qed.

End ErrorWatcherFacts.

(** * The further properties on examples *)

Module MoreWitnesses.
Import Fixture Listings.

Ltac conjuncts := repeat match goal with |- _ /\ _ => split end.
Ltac evaluate := vm_compute; reflexivity.

(** Each entry of a listing loads without aborting, or is no Python file. *)
Ltac entries :=
  repeat first
    [ apply Forall_nil_2
    | apply Forall_cons_2;
      [ let Hpy := fresh in
        intros Hpy; first [evaluate | (vm_compute in Hpy; discriminate)] | ] ].

Lemma uncaught_load_failure_propagates_witness :
  out_res (search dir_crash_late "MyStrat" None heap_at_definition) = Raised no_name /\
  omap exec_path (out_trace (search dir_crash_late "MyStrat" None heap_at_definition)) =
    ["/strats/Bar.py"; "/strats/Crash.py"].
Proof.
  destruct (uncaught_load_failure_propagates files absolute StrategyResolver dir_crash_late
              IStrategy "MyStrat" None heap_at_definition
              ["/strats/Bar.py"; "/strats/README.md"] "/strats/Crash.py"
              ["/strats/Foo.py"] no_name) as (Hres & Hexec & _).
  - evaluate.
  - entries.
  - evaluate.
  - evaluate.
  - split; [exact Hres|]. etrans; [exact Hexec|]. evaluate.
Defined.

Lemma found_instance_provenance_witness :
  out_res (search dir_one "MyStrat" None heap_at_definition) =
    Returned (Found {| inst_cls := MyStrat; inst_attrs := ∅ |} "/strats/Foo.py") /\
  exists entry,
    entry ∈ dir_entries dir_one /\
    endswith entry ".py" = true /\
    "/strats/Foo.py" = absolute (dir_str dir_one) entry /\
    (load files "/strats/Foo.py").1 !! "MyStrat" = Some (MClass MyStrat).
Proof.
  assert (Hres : out_res (search dir_one "MyStrat" None heap_at_definition) =
            Returned (Found {| inst_cls := MyStrat; inst_attrs := ∅ |} "/strats/Foo.py"))
    by evaluate.
  split; [exact Hres|].
  destruct (found_instance_provenance files absolute StrategyResolver dir_one IStrategy
              "MyStrat" None heap_at_definition _ _ Hres)
    as (entry & Hin & Hpy & Hpath & Hbound & _).
  exists entry. conjuncts; [exact Hin|exact Hpy|exact Hpath|exact Hbound].
Defined.

Lemma candidates_follow_listing_witness :
  out_res (scan dir_dup "MyStrat" heap_at_definition) =
    Returned [(MyStrat, "/strats/Foo.py"); (MyStrat2, "/strats/Dup.py")] /\
  ["/strats/Foo.py"; "/strats/Dup.py"] `sublist_of`
    ["/strats/Foo.py"; "/strats/Bar.py"; "/strats/Dup.py"].
Proof.
  assert (Hscan : out_res (scan dir_dup "MyStrat" heap_at_definition) =
            Returned [(MyStrat, "/strats/Foo.py"); (MyStrat2, "/strats/Dup.py")])
    by evaluate.
  split; [exact Hscan|].
  exact (proj1 (candidates_follow_listing files absolute dir_dup IStrategy "MyStrat"
                  heap_at_definition _ Hscan)).
Defined.

Lemma no_python_files_not_found_witness :
  search dir_notes "MyStrat" None heap_at_definition =
    Outcome (Returned NotFound) heap_at_definition
      [EvLog DEBUG "Searching for IStrategy MyStrat in '/strats'";
       EvLog DEBUG "Ignoring /strats/README.md";
       EvLog DEBUG "Ignoring /strats/notes.txt"] /\
  search dir_empty "MyStrat" None heap_at_definition =
    Outcome (Returned NotFound) heap_at_definition
      [EvLog DEBUG "Searching for IStrategy MyStrat in '/strats'"].
Proof.
  split.
  - apply (no_python_files_not_found files absolute StrategyResolver dir_notes IStrategy
             "MyStrat" None heap_at_definition).
    repeat constructor.
  - apply (no_python_files_not_found files absolute StrategyResolver dir_empty IStrategy
             "MyStrat" None heap_at_definition).
    constructor.
Defined.

Lemma caught_failures_each_warned_witness :
  filter (fun ev => is_warning ev = true)
    (out_trace (search dir_late "MyStrat" None heap_at_definition)) =
  [EvLog WARNING "Could not import /strats/NoTalib.py due to 'No module named 'talib''";
   EvLog WARNING "Could not import /strats/Late.py due to 'No module named 'talib''"].
Proof.
  etrans.
  - apply (caught_failures_each_warned files absolute StrategyResolver dir_late IStrategy
             "MyStrat" None heap_at_definition).
    entries.
  - evaluate.
Defined.

Lemma shorten_date_keeps_other_text_witness :
  Rpc.shorten_date "just now" = "just now".
Proof. apply RpcFacts.shorten_date_keeps_other_text; evaluate. Defined.

Lemma error_case_kept_by_more_output_witness :
  ErrorWatcher.__freqtrade_error_case "freqtrade - ERROR - boom" = true /\
  ErrorWatcher.__freqtrade_error_case
    ("2020-01-01 " +:+ "freqtrade - ERROR - boom" +:+ " and more") = true.
Proof.
  assert (H : ErrorWatcher.__freqtrade_error_case "freqtrade - ERROR - boom" = true)
    by evaluate.
  split; [exact H|].
  exact (ErrorWatcherFacts.error_case_kept_by_more_output "2020-01-01 " _ " and more" H).
Defined.

(** *** Further runs *)

Example shorten_date_humanized :
  Rpc.shorten_date "an hour ago" = "1 h ago" /\
  Rpc.shorten_date "a minute ago" = "1 min ago" /\
  Rpc.shorten_date "44 seconds ago" = "44 sec ago" /\
  Rpc.shorten_date "2 days ago" = "2 d ago".
Proof. conjuncts; evaluate. Qed.

(** Matches are taken in one pass from the left: what a replacement
    puts together is not looked at again. *)
Example shorten_date_single_pass :
  Rpc.shorten_date "secondsonds" = "seconds".
Proof. evaluate. Qed.

Example stop_bot_argument_of_log_line :
  ErrorWatcher.stop_bot_argument
    ("2020-01-01 freq_trade - ERROR: (some thing) bad" +:+ String newline "second line") =
  "2020-01-01#freqtrade#-#ERROR:some#thing#bad".
Proof. evaluate. Qed.

(** A created file in which [grep] finds nothing stops the bot. *)
Example on_created_without_match_stops :
  ErrorWatcher.on_created "/root/workspace/execution" "live" (fun _ => EmptyString) "f.log" =
  ["grep error f.log && grep exception f.log && grep Error f.log && grep Exception f.logf.log && grep ERROR f.log && grep EXCEPTION f.log";
   "python3 /root/workspace/execution/stop_bot.py live "].
Proof. evaluate. Qed.

(** The [except] clause takes the subclasses of its two classes too,
    and not [ImportError], which is above [ModuleNotFoundError]. *)
Example except_clause_takes_subclasses :
  caught_on_import tab_error = true /\
  caught_on_import plugin_missing = true /\
  caught_on_import {| exn_cls := ImportError; exn_msg := "cannot import name 'x'" |} = false /\
  caught_on_import no_name = false.
Proof. conjuncts; evaluate. Qed.

Example subclass_failures_are_warned :
  out_res (_search_object files_with_subclasses absolute StrategyResolver dir_subclasses
             IStrategy "MyStrat" None heap_at_definition) =
    Returned (Found {| inst_cls := MyStrat; inst_attrs := ∅ |} "/strats/Foo.py") /\
  filter (fun ev => is_warning ev = true)
    (out_trace (_search_object files_with_subclasses absolute StrategyResolver dir_subclasses
                  IStrategy "MyStrat" None heap_at_definition)) =
    [EvLog WARNING "Could not import /strats/Tabs.py due to 'inconsistent use of tabs and spaces in indentation (Tabs.py, line 3)'";
     EvLog WARNING "Could not import /strats/Plugin.py due to 'plugin 'ta' is not installed'"].
Proof. conjuncts; evaluate. Qed.

Example send_msg_after_cleanup_still_sent :
  Rpc.rpc_trace
    (Rpc.send_msg Rpc.flaky_telegram "hello"
       (Rpc.registered_after Rpc.flaky_telegram
          [Rpc.CallInit Rpc.config_enabled; Rpc.CallInit Rpc.config_enabled;
           Rpc.CallInit Rpc.config_silent; Rpc.CallCleanup] [])) =
  [Rpc.LogInfo "hello"; Rpc.TelegramSendMsg "hello"].
Proof. evaluate. Qed.

Example init_without_section_raises :
  Rpc.init Rpc.flaky_telegram Rpc.config_without_section [] =
  Rpc.RpcOutcome
    (Raised {| exn_cls := OtherException "KeyError" [OtherException "LookupError" []];
               exn_msg := "'telegram'" |})
    [] [].
Proof. evaluate. Qed.

End MoreWitnesses.
